(** * MultipleDelegation: multiple-parent delegation through a proxy

    A shallow embedding of
    [source/proxyTrapApproach/MultipleDelegation.class.js].

    The JavaScript store is a finite map from locations to objects.  A
    delegation node is one store cell: the raw target is the reference
    [VObj l], and the single proxy that the constructor wraps around it is
    the reference [VProxy l].  Operations are written in an outcome monad:
    a run returns, throws a [TypeError] of the host runtime, or leaves the
    part of the runtime that is modelled here.  Arrays are kept by their
    elements; the array that a caller passes to [addDelegation] is
    changed in place and may be the live delegate array of a node, so
    that argument names the array it is. *)

From stdpp Require Import base option list gmap strings.
From Stdlib Require Import ZArith.

Open Scope Z_scope.

(** ** Values *)

Definition loc := positive.

(** Numbers are modelled by the integers and [NaN]; function objects
    (whose [typeof] is not ['object']) are outside the model. *)
Inductive value : Type :=
| VUndefined
| VNull
| VBool (b : bool)
| VNum (n : Z)
| VNaN
| VStr (s : string)
| VObj (l : loc)
| VProxy (l : loc).

#[global] Instance value_eq_dec : EqDecision value.
Proof. solve_decision. Defined.

(** The symbol keys of [reference.js] that the class uses. *)
Inductive key : Type := KList | KTarget | KMetadata | KSetter.

#[global] Instance key_eq_dec : EqDecision key.
Proof. solve_decision. Defined.

(** [ToBoolean]: the truthiness test of [if (v)], [v && ...], [!v]. *)
Definition ToBoolean (v : value) : bool :=
  match v with
  | VUndefined | VNull | VNaN => false
  | VBool b => b
  | VNum n => negb (n =? 0)
  | VStr s => negb (bool_decide (s = EmptyString))
  | VObj _ | VProxy _ => true
  end.

(** [typeof v == 'object'] *)
Definition typeof_object (v : value) : bool :=
  match v with
  | VNull | VObj _ | VProxy _ => true
  | _ => false
  end.

(** [a === b] *)
Definition strictEquals (a b : value) : bool :=
  match a, b with
  | VNaN, _ | _, VNaN => false
  | _, _ => bool_decide (a = b)
  end.

(** ** Objects and the store *)

(** An object carries its [[Prototype]] slot, its extensibility flag and
    the own properties keyed by the symbols of the class: [$.target] (the
    self-reference marker), [$.list] (the delegate array) and [$.metadata]
    (the debugging record, whose [delegationList] getter reads [$.list]).
    Own data properties are writable.

    [obj_immutable_proto] marks an immutable-prototype object, such as
    [Object.prototype], whose prototype cannot be changed although the
    object is extensible.

    The array under [$.list] is kept in the cell by its elements, with
    [obj_list_fixed] telling whether that array has been frozen, sealed or
    made non-extensible.  The class never shares such an array between two
    cells: the setter stores a new array each time.  A caller can obtain
    the live array (the debugging record hands it out) and pass it to
    [addDelegation]; the list argument of [addDelegation] says when it
    does (see [array_ref]). *)
Record object : Type := Object {
  obj_proto : value;
  obj_extensible : bool;
  obj_target : option value;
  obj_list : option (list value);
  obj_metadata : bool;
  obj_immutable_proto : bool;
  obj_list_fixed : bool
}.

Definition set_proto (p : value) (o : object) : object :=
  Object p (obj_extensible o) (obj_target o) (obj_list o) (obj_metadata o)
    (obj_immutable_proto o) (obj_list_fixed o).
Definition set_target (t : value) (o : object) : object :=
  Object (obj_proto o) (obj_extensible o) (Some t) (obj_list o) (obj_metadata o)
    (obj_immutable_proto o) (obj_list_fixed o).
(** [o[$.list] = l] for a new array [l]. *)
Definition set_list (l : list value) (o : object) : object :=
  Object (obj_proto o) (obj_extensible o) (obj_target o) (Some l) (obj_metadata o)
    (obj_immutable_proto o) false.
Definition set_metadata (o : object) : object :=
  Object (obj_proto o) (obj_extensible o) (obj_target o) (obj_list o) true
    (obj_immutable_proto o) (obj_list_fixed o).

Abbreviation heap := (gmap loc object).

(** The prototype objects of the realm. *)
Definition ObjectPrototype : loc := 1%positive.
Definition BooleanPrototype : loc := 2%positive.
Definition NumberPrototype : loc := 3%positive.
Definition StringPrototype : loc := 4%positive.
(** [MultipleDelegation.prototype], which holds the [$.setter] method. *)
Definition MultipleDelegationPrototype : loc := 5%positive.

Definition reserved : gset loc :=
  {[ ObjectPrototype; BooleanPrototype; NumberPrototype; StringPrototype;
     MultipleDelegationPrototype ]}.

(** Allocation of a new object. *)
Definition fresh_loc (h : heap) : loc := fresh (reserved ∪ dom h).

(** The delegate list stored in cell [l] (empty when there is none). *)
Definition delegates (h : heap) (l : loc) : list value :=
  default [] (h !! l ≫= obj_list).

(** ** Outcomes *)

Inductive error : Type := TypeError.

Inductive outcome (A : Type) : Type :=
| Ret (a : A)
| Throw (e : error)
| Unmodelled.
Arguments Ret {A} a.
Arguments Throw {A} e.
Arguments Unmodelled {A}.

Definition bind {A B : Type} (k : A → outcome B) (m : outcome A) : outcome B :=
  match m with
  | Ret a => k a
  | Throw e => Throw e
  | Unmodelled => Unmodelled
  end.

#[global] Instance outcome_bind : MBind outcome := @bind.
#[global] Instance outcome_ret : MRet outcome := @Ret.

(** A reference to a cell that the store does not hold cannot arise in a
    run of the program. *)
Definition deref (h : heap) (l : loc) : outcome object :=
  match h !! l with
  | Some o => Ret o
  | None => Unmodelled
  end.

(** ** The interception layer *)

(** The own keys of an object, in the order in which the constructor
    creates them. *)
Definition ownKeys_of (o : object) : list key :=
  (if obj_list o is Some _ then [KList] else []) ++
  (if obj_target o is Some _ then [KTarget] else []) ++
  (if obj_metadata o then [KMetadata] else []).

Module proxyHandler.

(** Modelled from the spec: [interceptHandler.js] is not part of the
    sources.  "For operations that are about the node's own
    identity/shape (ownKeys, getPrototypeOf, ...): redirect directly to
    the node's own backing storage/native prototype." *)
Definition getPrototypeOf (h : heap) (target : loc) : outcome value :=
  o ← deref h target; Ret (obj_proto o).

(** Modelled from the spec: the [ownKeys] trap of [interceptHandler.js],
    which forwards to the node's own backing storage. *)
Definition ownKeys (h : heap) (target : loc) : outcome (list key) :=
  o ← deref h target; Ret (ownKeys_of o).

(** Modelled from the spec: the [get] trap of [interceptHandler.js] at
    the key [$.target]: "first attempt the operation against the node's
    own backing storage".  The walk over the delegates that follows a
    miss is not modelled. *)
Definition get_target (h : heap) (target : loc) : outcome value :=
  o ← deref h target;
  match obj_target o with
  | Some t => Ret t
  | None => Unmodelled
  end.

(** Modelled from the spec: [setPrototypeOf] is not among the traps the
    interception layer supplies, so the runtime applies the operation to
    the target: an unchanged prototype is accepted, an immutable-prototype
    object and an object that is not extensible refuse a new one. *)
Definition setPrototypeOf (h : heap) (target : loc) (proto : value)
  : outcome heap :=
  o ← deref h target;
  if bool_decide (obj_proto o = proto) then Ret h
  else if obj_immutable_proto o then Throw TypeError
  else if obj_extensible o then Ret (<[target := set_proto proto o]> h)
  else Throw TypeError.

End proxyHandler.

(** ** Runtime operations used by the class *)

(** [Object.getPrototypeOf(v)] *)
Definition getPrototypeOf (h : heap) (v : value) : outcome value :=
  match v with
  | VUndefined | VNull => Throw TypeError
  | VBool _ => Ret (VObj BooleanPrototype)
  | VNum _ | VNaN => Ret (VObj NumberPrototype)
  | VStr _ => Ret (VObj StringPrototype)
  | VObj l => o ← deref h l; Ret (obj_proto o)
  | VProxy l => proxyHandler.getPrototypeOf h l
  end.

(** [Reflect.ownKeys(v)] *)
Definition Reflect_ownKeys (h : heap) (v : value) : outcome (list key) :=
  match v with
  | VObj l => o ← deref h l; Ret (ownKeys_of o)
  | VProxy l => proxyHandler.ownKeys h l
  | _ => Throw TypeError
  end.

(** [v[$.target]].  A miss on the object's own properties continues in
    the prototype chain, which is not modelled. *)
Definition get_target (h : heap) (v : value) : outcome value :=
  match v with
  | VUndefined | VNull => Throw TypeError
  | VObj l =>
      o ← deref h l;
      match obj_target o with
      | Some t => Ret t
      | None => Unmodelled
      end
  | VProxy l => proxyHandler.get_target h l
  | _ => Unmodelled
  end.

(** [Object.setPrototypeOf(O, proto)] where [proto] is a proxy or [null]:
    the walk that looks for a cycle stops at once.  The prototype it has
    already is accepted by every object; a new one is refused by an
    immutable-prototype object and by an object that is not extensible.
    A primitive is returned as it is. *)
Definition setPrototypeOf (h : heap) (O proto : value) : outcome heap :=
  match proto with
  | VProxy _ | VNull =>
      match O with
      | VUndefined | VNull => Throw TypeError
      | VObj l =>
          o ← deref h l;
          if bool_decide (obj_proto o = proto) then Ret h
          else if obj_immutable_proto o then Throw TypeError
          else if obj_extensible o then Ret (<[l := set_proto proto o]> h)
          else Throw TypeError
      | VProxy l => proxyHandler.setPrototypeOf h l proto
      | _ => Ret h
      end
  | VObj _ => Unmodelled
  | _ => Throw TypeError
  end.

(** ** The class *)

(** [new Set(list)] followed by [[...set]]: values are entered one by one
    and kept in insertion order; a value already present is not entered
    again. *)
Definition Set_add (s : list value) (v : value) : list value :=
  if decide (v ∈ s) then s else s ++ [v].

Definition Set_from (l : list value) : list value := foldl Set_add [] l.

(** The argument of the setter and of the constructor: an array or a
    single value that is not an array. *)
Inductive delegation_arg : Type :=
| ArgList (l : list value)
| ArgOne (v : value).

(** [static [Symbol.hasInstance](instance)], with [this.prototype] as
    first argument. *)
Definition hasInstance (thisPrototype : value) (h : heap) (instance : value)
  : outcome value :=
  if ToBoolean instance && typeof_object instance then
    keys ← Reflect_ownKeys h instance;
    if bool_decide (KTarget ∈ keys) then
      t ← get_target h instance;
      p ← getPrototypeOf h t;
      Ret (VBool (strictEquals p thisPrototype))
    else Ret VUndefined
  else Ret VUndefined.

(** [[$.setter](prototype)], with [this] the object in cell [this]. *)
Definition setter (h : heap) (this : loc) (prototype : delegation_arg)
  : outcome heap :=
  let prototype :=
    match prototype with ArgList l => l | ArgOne v => [v] end in
  o ← deref h this;
  match obj_list o with
  | Some current =>
      let prototypeList := current ++ prototype in
      Ret (<[this := set_list (Set_from prototypeList) o]> h)
  | None => Unmodelled
  end.

(** [t[$.setter](arg)]: the method is found on
    [MultipleDelegation.prototype], the prototype of the raw target. *)
Definition call_setter (h : heap) (t : value) (arg : delegation_arg)
  : outcome heap :=
  match t with
  | VUndefined | VNull => Throw TypeError
  | VObj l =>
      o ← deref h l;
      if bool_decide (obj_proto o = VObj MultipleDelegationPrototype)
      then setter h l arg
      else Unmodelled
  | _ => Unmodelled
  end.

Definition update (h : heap) (l : loc) (f : object → object) : outcome heap :=
  o ← deref h l; Ret (<[l := f o]> h).

(** [constructor(delegationList = [])]; returns the store and the pair
    [{ proxy, target }]. *)
Definition constructor (h : heap) (delegationList : delegation_arg)
  : outcome (heap * (value * value)) :=
  let delegationList :=
    match delegationList with
    | ArgOne VUndefined => ArgList []
    | a => a
    end in
  let target := fresh_loc h in
  let h := <[target :=
               Object (VObj MultipleDelegationPrototype) true None None false
                 false false]> h in
  h ← update h target (set_list []);
  h ← setter h target delegationList;
  h ← update h target (set_target (VObj target));
  let proxy := VProxy target in
  h ← update h target set_metadata;
  Ret (h, (proxy, VObj target)).

(** The filter of [addDelegation]:
    [item => item && item !== multipleDelegationProxy]. *)
Definition keep (multipleDelegationProxy item : value) : bool :=
  ToBoolean item && negb (strictEquals item multipleDelegationProxy).

(** The array that a caller passes as [delegationList]: an array of its
    own, which is the [$.list] of no cell ([fixed] when it is frozen,
    sealed or not extensible), or the live array under [$.list] of the
    cell [n]. *)
Inductive array_ref : Type :=
| OwnArray (elems : list value) (fixed : bool)
| ListOf (n : loc).

(** The elements of the array. *)
Definition array_elems (h : heap) (a : array_ref) : outcome (list value) :=
  match a with
  | OwnArray l _ => Ret l
  | ListOf n =>
      o ← deref h n;
      match obj_list o with
      | Some l => Ret l
      | None => Unmodelled
      end
  end.

(** [a.unshift(v)]: the array is changed in place, so the cell that holds
    it sees the new element; an array that is fixed throws.  Returns the
    store and the elements of the array. *)
Definition unshift (h : heap) (a : array_ref) (v : value)
  : outcome (heap * list value) :=
  match a with
  | OwnArray l fixed =>
      if fixed then Throw TypeError else Ret (h, v :: l)
  | ListOf n =>
      o ← deref h n;
      match obj_list o with
      | Some l =>
          if obj_list_fixed o then Throw TypeError
          else Ret (<[n := set_list (v :: l) o]> h, v :: l)
      | None => Unmodelled
      end
  end.

(** [static addDelegation({ targetObject, delegationList = [] })]; returns
    the store and the elements of the caller's array, which [unshift] has
    changed in place.  The filter builds a new array and the setter stores
    a new array, so the caller's array is not changed again. *)
Definition addDelegation (h : heap) (targetObject : value)
    (delegationList : array_ref) : outcome (heap * list value) :=
  elems ← array_elems h delegationList;
  if (length elems =? 0)%nat then Ret (h, elems) else
  currentPrototype ← getPrototypeOf h targetObject;
  r ← unshift h delegationList currentPrototype;
  let h := r.1 in
  let delegationList := r.2 in
  isInstance ← hasInstance (VObj MultipleDelegationPrototype) h currentPrototype;
  h ← (if negb (ToBoolean isInstance) then
         r ← constructor h (ArgOne VUndefined);
         setPrototypeOf r.1 targetObject r.2.1
       else Ret h);
  multipleDelegationProxy ← getPrototypeOf h targetObject;
  let filtered := filter (λ item, keep multipleDelegationProxy item = true) delegationList in
  t ← get_target h multipleDelegationProxy;
  h ← call_setter h t (ArgList filtered);
  Ret (h, delegationList).

(** ** A small realm to run examples in *)

Definition plain (proto : value) : object :=
  Object proto true None None false false false.

(** [Object.prototype] is an immutable-prototype object. *)
Definition realm : heap :=
  <[ObjectPrototype := Object VNull true None None false true false]>
  (<[BooleanPrototype := plain (VObj ObjectPrototype)]>
  (<[NumberPrototype := plain (VObj ObjectPrototype)]>
  (<[StringPrototype := plain (VObj ObjectPrototype)]>
  (<[MultipleDelegationPrototype := plain (VObj ObjectPrototype)]> ∅)))).

(** The spec's words for the merge: every distinct reference is kept once,
    at the position of its first occurrence; later repeats are dropped.
    It is compared with [Set_from] in [Set_from_keepFirst]. *)
Fixpoint keepFirst (l : list value) : list value :=
  match l with
  | [] => []
  | x :: r => x :: filter (λ y, y ≠ x) (keepFirst r)
  end.

(** The list of an argument of the setter. *)
Definition arg_list (a : delegation_arg) : list value :=
  match a with ArgList l => l | ArgOne v => [v] end.

(** The cell of a node as the constructor leaves it. *)
Definition node_cell (n : loc) (l : list value) : object :=
  Object (VObj MultipleDelegationPrototype) true (Some (VObj n)) (Some l) true
    false false.

(** A value that refers to an object refers to one that the store holds. *)
Definition allocated (h : heap) (v : value) : Prop :=
  match v with
  | VObj l | VProxy l => is_Some (h !! l)
  | _ => True
  end.

(** The initial delegates of a constructor call: the default applies to
    an omitted ([undefined]) argument. *)
Definition initial_delegates (a : delegation_arg) : list value :=
  match a with
  | ArgOne VUndefined => []
  | a => arg_list a
  end.

(** The value of the own marker property [$.target] of an object, read
    through the proxy when the object is one. *)
Definition marker (h : heap) (x : value) : option value :=
  match x with
  | VObj l | VProxy l => h !! l ≫= obj_target
  | _ => None
  end.



(** ** Example stores *)

(** A host (cell 10) with one parent (cell 11) and two candidate delegates
    (cells 12 and 13). *)
Definition demo : heap :=
  <[10%positive := plain (VObj 11%positive)]>
  (<[11%positive := plain (VObj ObjectPrototype)]>
  (<[12%positive := plain (VObj ObjectPrototype)]>
  (<[13%positive := plain VNull]> realm))).

(** The store after [addDelegation] has given the host of [demo] its
    node. *)
Definition attached : heap :=
  <[14%positive := node_cell 14%positive [VObj 11%positive; VObj 12%positive]]>
  (<[10%positive := plain (VProxy 14%positive)]> demo).

(** A host that is frozen against extension. *)
Definition sealed : heap :=
  <[10%positive := Object (VObj 11%positive) false None None false false false]>
    demo.

(** An object whose marker key holds [null]. *)
Definition marked_null : heap :=
  <[10%positive := Object (VObj 11%positive) true (Some VNull) None false
                     false false]> demo.

(** A host without prototype that is frozen against extension. *)
Definition sealed_orphan : heap :=
  <[13%positive := Object VNull false None None false false false]> demo.

(** The host of [attached], made non-extensible after it got its node. *)
Definition attached_sealed : heap :=
  <[10%positive := Object (VProxy 14%positive) false None None false
                     false false]> attached.

(** * Properties *)

(** ** Insertion-ordered sets *)

Section SetFrom.

Implicit Types (s l acc : list value) (v x : value).

Lemma elem_of_Set_add s v x : x ∈ Set_add s v ↔ x ∈ s ∨ x = v.
Proof.
  unfold Set_add. case_decide as Hv.
  - split; [by left | intros [?| ->]; done].
  - rewrite elem_of_app, list_elem_of_singleton. tauto.
Qed.

Lemma NoDup_Set_add s v : NoDup s → NoDup (Set_add s v).
Proof.
  intros Hs. unfold Set_add. case_decide as Hv; [done|].
  apply NoDup_app. split_and!; [done| |apply NoDup_singleton].
  intros x Hx ->%list_elem_of_singleton. done.
Qed.

Lemma elem_of_foldl_Set_add l : ∀ acc x,
  x ∈ foldl Set_add acc l ↔ x ∈ acc ∨ x ∈ l.
Proof.
  induction l as [|v l IH]; intros acc x; simpl.
  - rewrite elem_of_nil. tauto.
  - rewrite IH, elem_of_Set_add, elem_of_cons. tauto.
Qed.

Lemma NoDup_foldl_Set_add l : ∀ acc,
  NoDup acc → NoDup (foldl Set_add acc l).
Proof.
  induction l as [|v l IH]; intros acc Hacc; simpl; [done|].
  by apply IH, NoDup_Set_add.
Qed.

Lemma elem_of_Set_from l x : x ∈ Set_from l ↔ x ∈ l.
Proof.
  unfold Set_from. rewrite elem_of_foldl_Set_add, elem_of_nil. tauto.
Qed.

Lemma NoDup_Set_from l : NoDup (Set_from l).
Proof. apply NoDup_foldl_Set_add, NoDup_nil_2. Qed.

(** Entering values that are all present changes nothing. *)
Lemma foldl_Set_add_absorb l : ∀ acc,
  (∀ x, x ∈ l → x ∈ acc) → foldl Set_add acc l = acc.
Proof.
  induction l as [|v l IH]; intros acc Hin; simpl; [done|].
  unfold Set_add at 2. rewrite decide_True by (apply Hin; left).
  apply IH. intros x Hx. apply Hin. by right.
Qed.

(** Entering values without repeats, none of them present, appends. *)
Lemma foldl_Set_add_NoDup l : ∀ acc,
  NoDup (acc ++ l) → foldl Set_add acc l = acc ++ l.
Proof.
  induction l as [|v l IH]; intros acc Hnd; simpl.
  - by rewrite app_nil_r.
  - assert (Hv : v ∉ acc).
    { apply NoDup_app in Hnd as (_ & Hd & _). intros Hin.
      apply (Hd v Hin). left. }
    unfold Set_add at 2. rewrite decide_False by done.
    rewrite IH; rewrite <- (assoc_L (++)); done.
Qed.

Lemma Set_from_app l1 l2 :
  Set_from (l1 ++ l2) = foldl Set_add (Set_from l1) l2.
Proof. unfold Set_from. apply foldl_app. Qed.

Lemma Set_from_NoDup l : NoDup l → Set_from l = l.
Proof. intros Hl. unfold Set_from. by rewrite foldl_Set_add_NoDup. Qed.

(** Merging the same list a second time gives the same sequence. *)
Lemma Set_from_again l1 l2 :
  Set_from (Set_from (l1 ++ l2) ++ l2) = Set_from (l1 ++ l2).
Proof.
  rewrite (Set_from_app (Set_from _)).
  rewrite (Set_from_NoDup (Set_from _)) by apply NoDup_Set_from.
  apply foldl_Set_add_absorb. intros x Hx.
  apply elem_of_Set_from, elem_of_app. by right.
Qed.

Lemma foldl_Set_add_keepFirst l : ∀ acc,
  foldl Set_add acc l = acc ++ filter (λ y, y ∉ acc) (keepFirst l).
Proof.
  induction l as [|v l IH]; intros acc; simpl.
  - by rewrite app_nil_r.
  - rewrite IH. unfold Set_add. case_decide as Hv.
    + rewrite filter_cons_False by (intros Hn; by apply Hn).
      f_equal. rewrite list_filter_filter. apply list_filter_iff.
      intros y. split; [|tauto]. intros Hy. split; [done|].
      by intros ->.
    + rewrite filter_cons_True by done.
      rewrite <- (assoc_L (++)). simpl. do 2 f_equal.
      rewrite list_filter_filter. apply list_filter_iff.
      intros y. rewrite elem_of_app, list_elem_of_singleton. tauto.
Qed.

Lemma filter_not_in_nil l : filter (λ y, y ∉ @nil value) l = l.
Proof.
  induction l as [|v l IH]; [done|].
  rewrite filter_cons_True by apply not_elem_of_nil. by rewrite IH.
Qed.

(** The set built by the code is the sequence the spec describes. *)
Lemma Set_from_keepFirst l : Set_from l = keepFirst l.
Proof.
  unfold Set_from. rewrite foldl_Set_add_keepFirst. simpl.
  apply filter_not_in_nil.
Qed.

End SetFrom.

(** ** The store and the outcome monad *)

Lemma fresh_loc_fresh (h : heap) : fresh_loc h ∉ reserved ∪ dom h.
Proof. unfold fresh_loc. apply is_fresh. Qed.

Lemma fresh_loc_None (h : heap) : h !! fresh_loc h = None.
Proof.
  apply not_elem_of_dom. pose proof (fresh_loc_fresh h). set_solver.
Qed.

Lemma fresh_loc_ne (h : heap) (l : loc) : is_Some (h !! l) → l ≠ fresh_loc h.
Proof. intros [o Ho] ->. rewrite fresh_loc_None in Ho. done. Qed.

Lemma bind_Ret {A B} (a : A) (k : A → outcome B) : (Ret a ≫= k) = k a.
Proof. reflexivity. Qed.

Lemma bind_Ret_inv {A B} (m : outcome A) (k : A → outcome B) (b : B) :
  (m ≫= k) = Ret b → ∃ a, m = Ret a ∧ k a = Ret b.
Proof. destruct m as [a| |]; simpl; [eauto|done|done]. Qed.

Lemma deref_Some (h : heap) (l : loc) (o : object) :
  h !! l = Some o → deref h l = Ret o.
Proof. unfold deref. by intros ->. Qed.

Lemma deref_Ret (h : heap) (l : loc) (o : object) :
  deref h l = Ret o → h !! l = Some o.
Proof. unfold deref. destruct (h !! l); naive_solver. Qed.

Lemma dom_insert_present (h : heap) (l : loc) (o : object) :
  is_Some (h !! l) → dom (<[l := o]> h) = dom h.
Proof.
  intros Hl. rewrite dom_insert_L.
  by apply subseteq_union_1_L, singleton_subseteq_l, elem_of_dom.
Qed.

Lemma delegates_insert (h : heap) (l : loc) (o : object) :
  delegates (<[l := o]> h) l = default [] (obj_list o).
Proof. unfold delegates. by rewrite lookup_insert_eq. Qed.

Lemma delegates_insert_ne (h : heap) (l m : loc) (o : object) :
  l ≠ m → delegates (<[l := o]> h) m = delegates h m.
Proof. intros Hne. unfold delegates. by rewrite lookup_insert_ne. Qed.

Lemma delegates_lookup (h : heap) (l : loc) (o : object) (cur : list value) :
  h !! l = Some o → obj_list o = Some cur → delegates h l = cur.
Proof. intros Ho Hc. unfold delegates. rewrite Ho. simpl. by rewrite Hc. Qed.

(** Rewrites one step of a run whose cell lookups are known. *)
Ltac run_step :=
  first
    [ rewrite bind_Ret
    | rewrite lookup_insert_eq
    | rewrite lookup_insert_ne by congruence
    | rewrite insert_insert_eq
    | progress simpl ].

Ltac ret := repeat (rewrite bind_Ret; cbv beta).

Ltac run := repeat (unfold update, deref; simpl; repeat run_step).

(** ** Node creation and merge *)

Lemma constructor_eq (h : heap) (a : delegation_arg) :
  constructor h a =
    Ret (<[fresh_loc h := node_cell (fresh_loc h) (Set_from (initial_delegates a))]> h,
         (VProxy (fresh_loc h), VObj (fresh_loc h))).
Proof.
  unfold constructor, setter. run.
  destruct a as [l|[]]; reflexivity.
Qed.

Lemma setter_eq (h : heap) (n : loc) (o : object) (cur : list value)
    (a : delegation_arg) :
  h !! n = Some o → obj_list o = Some cur →
  setter h n a = Ret (<[n := set_list (Set_from (cur ++ arg_list a)) o]> h).
Proof.
  intros Ho Hc. unfold setter. rewrite (deref_Some _ _ _ Ho). ret.
  rewrite Hc. by destruct a.
Qed.

Lemma setter_inv (h h' : heap) (n : loc) (a : delegation_arg) :
  setter h n a = Ret h' →
  ∃ o cur, h !! n = Some o ∧ obj_list o = Some cur ∧
    h' = <[n := set_list (Set_from (cur ++ arg_list a)) o]> h.
Proof.
  unfold setter. intros (o & Ho%deref_Ret & Hk)%bind_Ret_inv.
  destruct (obj_list o) as [cur|] eqn:Hc; [|done].
  exists o, cur. split_and!; [done..|]. destruct a; naive_solver.
Qed.

(** ** Prototype queries and the instance test *)

Lemma getPrototypeOf_set_list (h : heap) (n : loc) (o : object)
    (l : list value) (v : value) :
  h !! n = Some o →
  getPrototypeOf (<[n := set_list l o]> h) v = getPrototypeOf h v.
Proof.
  intros Ho. destruct v as [| | | | | |k|k]; try reflexivity;
    unfold getPrototypeOf, proxyHandler.getPrototypeOf, deref;
    (destruct (decide (n = k)) as [->|Hne];
      [rewrite lookup_insert_eq, Ho | rewrite lookup_insert_ne by done]);
    reflexivity.
Qed.

Lemma setPrototypeOf_delegates (h h' : heap) (O p : value) (m : loc) :
  setPrototypeOf h O p = Ret h' → delegates h' m = delegates h m.
Proof.
  assert (Hcell : ∀ l, proxyHandler.setPrototypeOf h l p = Ret h' →
            delegates h' m = delegates h m).
  { intros l (o & Ho%deref_Ret & Hk)%bind_Ret_inv.
    case_bool_decide; [by simplify_eq|].
    destruct (obj_immutable_proto o); [done|].
    destruct (obj_extensible o); [|done]. simplify_eq.
    unfold delegates. destruct (decide (l = m)) as [->|Hne].
    - by rewrite lookup_insert_eq, Ho.
    - by rewrite lookup_insert_ne. }
  unfold setPrototypeOf.
  destruct p, O; try done; try (by intros [= ->]); apply Hcell.
Qed.

(** The instance test accepts the proxy of a node that the constructor
    built. *)
Lemma hasInstance_node (h : heap) (n : loc) (c : object) :
  h !! n = Some c → obj_target c = Some (VObj n) →
  obj_proto c = VObj MultipleDelegationPrototype →
  hasInstance (VObj MultipleDelegationPrototype) h (VProxy n) = Ret (VBool true).
Proof.
  intros Hc Ht Hp.
  unfold hasInstance. simpl.
  unfold proxyHandler.ownKeys, proxyHandler.get_target.
  run. rewrite Hc. run.
  rewrite bool_decide_eq_true_2.
  2:{ unfold ownKeys_of. rewrite Ht. set_solver. }
  rewrite Ht. run. rewrite Hc. run. by rewrite Hp.
Qed.

Lemma KTarget_ownKeys (o : object) :
  KTarget ∈ ownKeys_of o ↔ is_Some (obj_target o).
Proof.
  unfold ownKeys_of.
  destruct (obj_list o), (obj_target o), (obj_metadata o); simpl;
    (split; intros H; [|try (by repeat constructor; fail)]);
    try (by eexists); try (by destruct H);
    repeat (apply elem_of_cons in H as [H|H]; [discriminate H|]);
    by apply elem_of_nil in H.
Qed.

Lemma strictEquals_obj (p : value) (c : loc) :
  strictEquals p (VObj c) = true ↔ p = VObj c.
Proof.
  unfold strictEquals. destruct p; try by rewrite bool_decide_eq_true.
  split; discriminate.
Qed.

Lemma hasInstance_no_marker (tp : value) (h : heap) (x : value) :
  allocated h x → marker h x = None → hasInstance tp h x = Ret VUndefined.
Proof.
  intros Ha Hm. unfold hasInstance.
  destruct x as [| |b|z| |s|l|l]; try reflexivity;
    try (by destruct b); try (by destruct (ToBoolean _));
    simpl in *; destruct Ha as [o Ho];
    unfold proxyHandler.ownKeys, deref; rewrite Ho in *; simpl in *; ret;
    rewrite bool_decide_eq_false_2; try done;
    rewrite KTarget_ownKeys, Hm; by intros [? ?].
Qed.

Lemma hasInstance_marker (tp : value) (h : heap) (x t : value) :
  marker h x = Some t →
  hasInstance tp h x =
    (p ← getPrototypeOf h t; Ret (VBool (strictEquals p tp))).
Proof.
  intros Hm. unfold hasInstance.
  destruct x as [| | | | | |l|l]; try discriminate; simpl in *;
    unfold proxyHandler.ownKeys, proxyHandler.get_target, deref;
    destruct (h !! l) as [o|]; try discriminate; simpl in *; ret;
    (rewrite bool_decide_eq_true_2 by (rewrite KTarget_ownKeys, Hm; eauto));
    rewrite Hm; by ret.
Qed.


(** The filter never keeps the value it is given to exclude. *)
Lemma keep_self (p : value) : keep p p = false.
Proof.
  assert (H : strictEquals p p = true ∨ p = VNaN).
  { destruct p; simpl; auto; left; by apply bool_decide_eq_true_2. }
  unfold keep. destruct H as [H| ->]; [|reflexivity].
  rewrite H. apply andb_false_r.
Qed.

Lemma keep_truthy (p x : value) : keep p x = true → ToBoolean x = true.
Proof. unfold keep. by intros [? _]%andb_true_iff. Qed.

Lemma keep_other (p x : value) :
  ToBoolean x = true → x ≠ p → keep p x = true.
Proof.
  intros Hx Hne. unfold keep. rewrite Hx. simpl.
  apply negb_true_iff. unfold strictEquals.
  destruct x, p; try reflexivity; by apply bool_decide_eq_false_2.
Qed.

(** ** Arrays *)

Lemma unshift_own (h : heap) (L : list value) (v : value) :
  unshift h (OwnArray L false) v = Ret (h, v :: L).
Proof. reflexivity. Qed.

(** A successful [unshift] puts the value in front of the elements; the
    store changes only when the array is the live list of a cell. *)
Lemma unshift_shape (h hu : heap) (a : array_ref) (v : value)
    (arr : list value) :
  unshift h a v = Ret (hu, arr) →
  ∃ L, array_elems h a = Ret L ∧ arr = v :: L ∧
    ((a = OwnArray L false ∧ hu = h) ∨
     (∃ k o, a = ListOf k ∧ h !! k = Some o ∧ obj_list o = Some L ∧
        hu = <[k := set_list (v :: L) o]> h)).
Proof.
  destruct a as [L [|]|k]; simpl; [done| |].
  - intros [= <- <-]. exists L. split_and!; [done..|]. by left.
  - intros (o & Ho%deref_Ret & Hk)%bind_Ret_inv.
    destruct (obj_list o) as [L|] eqn:HL; [|done].
    destruct (obj_list_fixed o); [done|]. injection Hk as <- <-.
    exists L. unfold deref. rewrite Ho. simpl. rewrite HL.
    split_and!; [done..|]. right. eauto 10.
Qed.

Lemma fresh_loc_dom (h h' : heap) : dom h' = dom h → fresh_loc h' = fresh_loc h.
Proof. unfold fresh_loc. by intros ->. Qed.

(** ** The runs of addDelegation *)

Lemma setPrototypeOf_shape (h h' : heap) (O p : value) :
  setPrototypeOf h O p = Ret h' →
  h' = h ∨
  ∃ l o, (O = VObj l ∨ O = VProxy l) ∧ h !! l = Some o ∧
    h' = <[l := set_proto p o]> h.
Proof.
  assert (Hcell : ∀ l, (O = VObj l ∨ O = VProxy l) →
    proxyHandler.setPrototypeOf h l p = Ret h' →
    h' = h ∨ ∃ l o, (O = VObj l ∨ O = VProxy l) ∧ h !! l = Some o ∧
      h' = <[l := set_proto p o]> h).
  { intros l HO (o & Ho%deref_Ret & Hk)%bind_Ret_inv.
    case_bool_decide; [left; by simplify_eq|].
    destruct (obj_immutable_proto o); [done|].
    destruct (obj_extensible o); [|done]. simplify_eq. right. eauto. }
  unfold setPrototypeOf.
  destruct p, O; try done; try (intros [= ->]; by left);
    apply Hcell; auto.
Qed.

(** The step that allocates and installs a node: cells are kept, with
    their own properties; only the prototype slot of the host may change,
    and only the cell of the new node may appear. *)
Lemma install_shape (h hm : heap) (host isInstance : value) :
  (if negb (ToBoolean isInstance) then
     r ← constructor h (ArgOne VUndefined);
     setPrototypeOf r.1 host r.2.1
   else Ret h) = Ret hm →
  (∀ k, delegates hm k = delegates h k) ∧
  (∀ k o, h !! k = Some o →
     ∃ o', hm !! k = Some o' ∧ obj_target o' = obj_target o ∧
       obj_list o' = obj_list o ∧ obj_extensible o' = obj_extensible o ∧
       obj_metadata o' = obj_metadata o ∧
       (host ≠ VObj k → host ≠ VProxy k → obj_proto o' = obj_proto o)) ∧
  (∀ k, is_Some (hm !! k) → is_Some (h !! k) ∨ k = fresh_loc h).
Proof.
  destruct (negb _); [|intros [= ->]; split_and!; eauto 10].
  rewrite constructor_eq. ret. cbn [fst snd]. intros Hset. split.
  { intros k. rewrite (setPrototypeOf_delegates _ _ _ _ k Hset).
    destruct (decide (fresh_loc h = k)) as [<-|Hne].
    - rewrite delegates_insert. unfold delegates.
      by rewrite fresh_loc_None.
    - by rewrite delegates_insert_ne. }
  apply setPrototypeOf_shape in Hset as [->|(l & o & HO & Ho & ->)].
  - split.
    + intros k o Ho. exists o.
      rewrite lookup_insert_ne by (apply not_eq_sym, fresh_loc_ne; eauto).
      eauto 10.
    + intros k [o Ho]. destruct (decide (fresh_loc h = k)) as [<-|Hne]; [by right|].
      left. rewrite lookup_insert_ne in Ho by done. eauto.
  - split.
    + intros k ok Hk.
      assert (Hkf : fresh_loc h ≠ k) by (apply not_eq_sym, fresh_loc_ne; eauto).
      destruct (decide (l = k)) as [->|Hlk].
      * rewrite lookup_insert_eq. eexists. split; [done|].
        rewrite lookup_insert_ne, Hk in Ho by done. injection Ho as <-.
        split_and!; try done. intros H1 H2. by destruct HO.
      * rewrite !lookup_insert_ne by done. eauto 10.
    + intros k [ok Hk]. destruct (decide (fresh_loc h = k)) as [<-|Hne]; [by right|].
      left. destruct (decide (l = k)) as [->|Hlk].
      * rewrite lookup_insert_ne in Ho by done. eauto.
      * rewrite !lookup_insert_ne in Hk by done. eauto.
Qed.

Lemma call_setter_proto (h h' : heap) (t : value) (a : delegation_arg) :
  call_setter h t a = Ret h' →
  ∃ n o cur, t = VObj n ∧ h !! n = Some o ∧
    obj_proto o = VObj MultipleDelegationPrototype ∧ obj_list o = Some cur ∧
    h' = <[n := set_list (Set_from (cur ++ arg_list a)) o]> h.
Proof.
  destruct t as [| | | | | |n|n]; simpl; try done.
  intros (o & Ho%deref_Ret & Hk)%bind_Ret_inv.
  case_bool_decide as Hp; [|done].
  apply setter_inv in Hk as (o' & cur & ? & ? & ?). simplify_eq.
  eauto 10.
Qed.

Lemma get_target_marker (h : heap) (p t : value) :
  get_target h p = Ret t → marker h p = Some t.
Proof.
  destruct p as [| | | | | |l|l]; simpl; try done;
    unfold proxyHandler.get_target, deref;
    destruct (h !! l) as [o|]; simpl; try done;
    destruct (obj_target o); by intros [= ->].
Qed.

Lemma marker_get_target (h : heap) (p t : value) :
  marker h p = Some t → get_target h p = Ret t.
Proof.
  destruct p as [| | | | | |l|l]; simpl; try done;
    unfold proxyHandler.get_target, deref;
    destruct (h !! l) as [o|]; simpl; try done; by intros ->.
Qed.

Lemma marker_set_list (h : heap) (n : loc) (o : object) (l : list value)
    (p : value) :
  h !! n = Some o → marker (<[n := set_list l o]> h) p = marker h p.
Proof.
  intros Ho. destruct p as [| | | | | |k|k]; try reflexivity; simpl;
    (destruct (decide (n = k)) as [->|Hne];
      [rewrite lookup_insert_eq, Ho | rewrite lookup_insert_ne by done]);
    reflexivity.
Qed.

(** The shape of every run that returns: either the array is empty and
    nothing happens, or the prototype of the host is put in front of the
    array, a node is installed when the prototype is not an instance, and
    the filtered array is merged into the cell that the marker of the
    host's prototype names. *)
Lemma addDelegation_Ret_inv (h h' : heap) (host : value) (a : array_ref)
    (arr : list value) :
  addDelegation h host a = Ret (h', arr) →
  (array_elems h a = Ret [] ∧ h' = h ∧ arr = []) ∨
  ∃ L cp hu isInstance hm p n o cur,
    array_elems h a = Ret L ∧ L ≠ [] ∧
    getPrototypeOf h host = Ret cp ∧
    unshift h a cp = Ret (hu, cp :: L) ∧ arr = cp :: L ∧
    (if negb (ToBoolean isInstance) then
       r ← constructor hu (ArgOne VUndefined);
       setPrototypeOf r.1 host r.2.1
     else Ret hu) = Ret hm ∧
    getPrototypeOf hm host = Ret p ∧ marker hm p = Some (VObj n) ∧
    hm !! n = Some o ∧ obj_proto o = VObj MultipleDelegationPrototype ∧
    obj_list o = Some cur ∧
    h' = <[n := set_list
                  (Set_from (cur ++ filter (λ item, keep p item = true) arr)) o]> hm.
Proof.
  unfold addDelegation.
  intros (L & HL & H)%bind_Ret_inv.
  destruct L as [|d L]; [left; by injection H as <- <-|]. right.
  cbn [length Nat.eqb] in H.
  apply bind_Ret_inv in H as (cp & Hcp & H).
  apply bind_Ret_inv in H as ([hu arr'] & Hun & H). cbn [fst snd] in H.
  apply bind_Ret_inv in H as (isInstance & Hinst & H).
  apply bind_Ret_inv in H as (hm & Hhm & H).
  apply bind_Ret_inv in H as (p & Hp & H).
  apply bind_Ret_inv in H as (t & Ht & H).
  apply bind_Ret_inv in H as (h2 & Hset & H).
  injection H as <- <-.
  apply call_setter_proto in Hset as (n & o & cur & -> & Ho & Hproto & Hcur & ->).
  apply get_target_marker in Ht.
  destruct (unshift_shape _ _ _ _ _ Hun) as (L' & HL' & -> & _).
  rewrite HL in HL'. injection HL' as <-.
  exists (d :: L), cp, hu, isInstance, hm, p, n, o, cur.
  split_and!; done.
Qed.

(** After such a run the prototype of the host is an instance whose
    marker holds the raw target of the node that was merged into. *)
Lemma merged_store_instance (hm : heap) (host p : value) (n : loc)
    (o : object) (l : list value) :
  getPrototypeOf hm host = Ret p → marker hm p = Some (VObj n) →
  hm !! n = Some o → obj_proto o = VObj MultipleDelegationPrototype →
  getPrototypeOf (<[n := set_list l o]> hm) host = Ret p ∧
  marker (<[n := set_list l o]> hm) p = Some (VObj n) ∧
  hasInstance (VObj MultipleDelegationPrototype) (<[n := set_list l o]> hm) p
    = Ret (VBool true).
Proof.
  intros Hp Hm Ho Hproto.
  assert (Hm' : marker (<[n := set_list l o]> hm) p = Some (VObj n))
    by (by rewrite marker_set_list).
  split_and!; [by rewrite getPrototypeOf_set_list|done|].
  rewrite (hasInstance_marker _ _ _ _ Hm'). simpl. unfold deref.
  rewrite lookup_insert_eq. ret. simpl. by rewrite Hproto.
Qed.

(** First attachment: the prototype of the host is not an instance, a
    node is allocated and installed. *)
Lemma addDelegation_install (h : heap) (host : loc) (o : object) (v : value)
    (L : list value) :
  h !! host = Some o → obj_extensible o = true →
  obj_immutable_proto o = false →
  hasInstance (VObj MultipleDelegationPrototype) h (obj_proto o) = Ret v →
  ToBoolean v = false → L ≠ [] →
  addDelegation h (VObj host) (OwnArray L false) =
    Ret (<[fresh_loc h :=
             node_cell (fresh_loc h)
               (Set_from (filter (λ item, keep (VProxy (fresh_loc h)) item = true)
                                 (obj_proto o :: L)))]>
           (<[host := set_proto (VProxy (fresh_loc h)) o]> h),
         obj_proto o :: L).
Proof.
  intros Ho Hext Himm Hinst Hv HL.
  assert (Hne : host ≠ fresh_loc h) by (by apply fresh_loc_ne).
  assert (Hproto : obj_proto o ≠ VProxy (fresh_loc h)).
  { intros Heq. rewrite Heq in Hinst. unfold hasInstance in Hinst.
    simpl in Hinst. unfold proxyHandler.ownKeys, deref in Hinst.
    by rewrite fresh_loc_None in Hinst. }
  unfold addDelegation. destruct L as [|d L]; [done|]. simpl.
  rewrite (deref_Some _ _ _ Ho). ret. rewrite Hinst. ret. rewrite Hv. simpl.
  rewrite constructor_eq. run. rewrite Ho. run.
  rewrite bool_decide_eq_false_2 by done. rewrite Himm, Hext. run.
  unfold proxyHandler.get_target. run.
  erewrite setter_eq;
    [|by rewrite lookup_insert_ne, lookup_insert_eq|reflexivity].
  ret. simpl.
  by rewrite (insert_insert_ne _ host), insert_insert_eq by done.
Qed.

(** Later attachment: the prototype of the host is the proxy of a node,
    the delegates are merged into it. *)
Lemma addDelegation_merge (h : heap) (host n : loc) (o c : object)
    (cur L : list value) :
  h !! host = Some o → obj_proto o = VProxy n →
  h !! n = Some c → obj_target c = Some (VObj n) →
  obj_proto c = VObj MultipleDelegationPrototype → obj_list c = Some cur →
  L ≠ [] →
  addDelegation h (VObj host) (OwnArray L false) =
    Ret (<[n := set_list
                  (Set_from (cur ++ filter (λ item, keep (VProxy n) item = true)
                                           (VProxy n :: L))) c]> h,
         VProxy n :: L).
Proof.
  intros Ho Hp Hc Ht Hcp Hl HL.
  unfold addDelegation. destruct L as [|d L]; [done|]. simpl.
  rewrite (deref_Some _ _ _ Ho). ret. rewrite Hp.
  rewrite (hasInstance_node _ _ _ Hc Ht Hcp). ret. simpl. ret.
  rewrite (deref_Some _ _ _ Ho). ret. rewrite Hp. ret.
  unfold get_target, proxyHandler.get_target.
  rewrite (deref_Some _ _ _ Hc). ret. rewrite Ht. ret.
  unfold call_setter. rewrite (deref_Some _ _ _ Hc). ret.
  rewrite Hcp, bool_decide_eq_true_2 by done.
  by rewrite (setter_eq _ _ _ _ _ Hc Hl).
Qed.

(** What a call of [addDelegation] with an array of the caller's own adds
    to a delegate list comes from that array and has passed the filter
    against the prototype of the host. *)
Lemma addDelegation_adds (h h' : heap) (host : value) (L arr : list value)
    (fixed : bool) :
  addDelegation h host (OwnArray L fixed) = Ret (h', arr) → L ≠ [] →
  ∃ p, getPrototypeOf h' host = Ret p ∧
    ∀ m x, x ∈ delegates h' m →
      x ∈ delegates h m ∨ (x ∈ arr ∧ keep p x = true).
Proof.
  intros Hrun HL.
  apply addDelegation_Ret_inv in Hrun
    as [([= ->] & _)|(L' & cp & hu & isInstance & hm & p & n & o & cur
        & [= <-] & _ & Hcp & Hun & -> & Hhm & Hp & Hm & Ho & Hproto & Hcur & ->)];
    [done|].
  destruct (unshift_shape _ _ _ _ _ Hun)
    as (_ & _ & _ & [[_ ->]|(k & ? & [=] & _)]).
  destruct (install_shape _ _ _ _ Hhm) as (Hdel & _ & _).
  exists p. split.
  { by rewrite getPrototypeOf_set_list. }
  intros m x. destruct (decide (n = m)) as [<-|Hne].
  - rewrite delegates_insert. simpl.
    rewrite elem_of_Set_from, elem_of_app, list_elem_of_filter.
    intros [Hx|[Hk Hx]]; [left|right; done].
    by rewrite <- Hdel, (delegates_lookup _ _ _ _ Ho Hcur).
  - rewrite delegates_insert_ne by done. intros Hx. left.
    by rewrite <- Hdel.
Qed.

(** ** Runs on the example stores *)

Example demo_fresh : fresh_loc demo = 14%positive.
Proof. reflexivity. Qed.

(** [new Set] keeps the first of two equal entries; a removal of
    duplicates that keeps the last one gives another order. *)
Example first_occurrence_not_last :
  Set_from [VObj 11%positive; VObj 12%positive; VObj 11%positive; VObj 13%positive]
    = [VObj 11%positive; VObj 12%positive; VObj 13%positive] ∧
  remove_dups [VObj 11%positive; VObj 12%positive; VObj 11%positive; VObj 13%positive]
    = [VObj 12%positive; VObj 11%positive; VObj 13%positive].
Proof. split; vm_compute; reflexivity. Qed.

Example attached_reached :
  addDelegation demo (VObj 10%positive) (OwnArray [VObj 12%positive] false)
    = Ret (attached, [VObj 11%positive; VObj 12%positive]).
Proof. vm_compute. reflexivity. Qed.

(** When the caller passes the live delegate array of the host's own
    node, [unshift] puts the proxy into that array before the filter
    runs, and the setter keeps it. *)
Example own_list_passed :
  addDelegation attached (VObj 10%positive) (ListOf 14%positive)
    = Ret (<[14%positive :=
               node_cell 14%positive
                 [VProxy 14%positive; VObj 11%positive; VObj 12%positive]]> attached,
           [VProxy 14%positive; VObj 11%positive; VObj 12%positive]).
Proof. vm_compute. reflexivity. Qed.

(** When the caller passes the live delegate array of another node for a
    host without prototype, [unshift] puts [null] into that node's
    delegates. *)
Example other_list_passed :
  (r ← addDelegation attached (VObj 13%positive) (ListOf 14%positive);
   Ret (delegates r.1 14%positive, delegates r.1 15%positive, r.2))
    = Ret ([VNull; VObj 11%positive; VObj 12%positive],
           [VObj 11%positive; VObj 12%positive],
           [VNull; VObj 11%positive; VObj 12%positive]).
Proof. vm_compute. reflexivity. Qed.

Lemma filter_keep_all (p : value) (l : list value) :
  (∀ x, x ∈ l → ToBoolean x = true ∧ x ≠ p) →
  filter (λ item, keep p item = true) l = l.
Proof.
  induction l as [|x l IH]; intros Hl; [done|].
  destruct (Hl x) as [Hx Hne]; [left|].
  rewrite filter_cons_True by (by apply keep_other).
  rewrite IH; [done|]. intros y Hy. apply Hl. by right.
Qed.

Lemma filter_keep_self_cons (p : value) (l : list value) :
  filter (λ item, keep p item = true) (p :: l)
    = filter (λ item, keep p item = true) l.
Proof. apply filter_cons_False. by rewrite keep_self. Qed.

Lemma NoDup_three (a b c : value) :
  a ≠ b → a ≠ c → b ≠ c → NoDup [a; b; c].
Proof.
  intros Hab Hac Hbc.
  apply NoDup_cons_2; [|apply NoDup_cons_2; [|apply NoDup_singleton]].
  - intros [?|[?|?%elem_of_nil]%elem_of_cons]%elem_of_cons; done.
  - intros ?%list_elem_of_singleton; done.
Qed.

Lemma allocated_fresh (h : heap) (v : value) :
  allocated h v → v ≠ VProxy (fresh_loc h) ∧ v ≠ VObj (fresh_loc h).
Proof.
  intros Hv. split; intros ->; simpl in Hv;
    rewrite fresh_loc_None in Hv; by destruct Hv.
Qed.

(** The run of a first attachment of one delegate. *)
Lemma addDelegation_first (h : heap) (host p : loc) (o : object)
    (D v : value) :
  h !! host = Some o → obj_extensible o = true →
  obj_immutable_proto o = false → obj_proto o = VObj p →
  hasInstance (VObj MultipleDelegationPrototype) h (VObj p) = Ret v →
  ToBoolean v = false →
  ToBoolean D = true → allocated h D → D ≠ VObj p →
  addDelegation h (VObj host) (OwnArray [D] false) =
    Ret (<[fresh_loc h := node_cell (fresh_loc h) [VObj p; D]]>
           (<[host := set_proto (VProxy (fresh_loc h)) o]> h),
         [VObj p; D]).
Proof.
  intros Ho Hext Himm Hp Hinst Hv HD Halloc Hne.
  destruct (allocated_fresh _ _ Halloc) as [HDn _].
  rewrite <- Hp in Hinst.
  rewrite (addDelegation_install h host o v [D] Ho Hext Himm Hinst Hv) by done.
  rewrite Hp, filter_keep_all, Set_from_NoDup; [done| |].
  - apply NoDup_cons. split; [|apply NoDup_singleton].
    rewrite list_elem_of_singleton. congruence.
  - intros x [->| ->%list_elem_of_singleton]%elem_of_cons; done.
Qed.

(** * The claims *)

(** C1, as stated, fails: a host that is not extensible has an ordinary
    prototype, yet the call throws and installs nothing; and when the
    delegate passed is the prototype itself the delegates are [[P]]. *)
Lemma first_attach_can_fail :
  getPrototypeOf sealed (VObj 10%positive) = Ret (VObj 11%positive) ∧
  hasInstance (VObj MultipleDelegationPrototype) sealed (VObj 11%positive)
    = Ret VUndefined ∧
  addDelegation sealed (VObj 10%positive) (OwnArray [VObj 12%positive] false)
    = Throw TypeError ∧
  addDelegation demo (VObj 10%positive) (OwnArray [VObj 11%positive] false)
    = Ret (<[14%positive := node_cell 14%positive [VObj 11%positive]]>
             (<[10%positive := plain (VProxy 14%positive)]> demo),
           [VObj 11%positive; VObj 11%positive]).
Proof. split_and!; vm_compute; reflexivity. Qed.

(** C1, amended: for a host whose prototype can be set (the host is
    extensible and is not an immutable-prototype object) and whose
    prototype [P] is an ordinary object that the instance test rejects,
    [addDelegation] with the array [[D]], where [D] is a truthy value held
    by the store and distinct from [P], allocates a new cell, installs its
    proxy as the prototype of the host, and leaves the delegates of the
    new node equal to [[P; D]]. *)
Theorem attach_first_delegate (h : heap) (host p : loc) (o : object)
    (D v : value) :
  h !! host = Some o → obj_extensible o = true →
  obj_immutable_proto o = false → obj_proto o = VObj p →
  hasInstance (VObj MultipleDelegationPrototype) h (VObj p) = Ret v →
  ToBoolean v = false →
  ToBoolean D = true → allocated h D → D ≠ VObj p →
  h !! fresh_loc h = None ∧
  ∃ h', addDelegation h (VObj host) (OwnArray [D] false)
          = Ret (h', [VObj p; D]) ∧
    h' = <[fresh_loc h := node_cell (fresh_loc h) [VObj p; D]]>
           (<[host := set_proto (VProxy (fresh_loc h)) o]> h) ∧
    getPrototypeOf h' (VObj host) = Ret (VProxy (fresh_loc h)) ∧
    delegates h' (fresh_loc h) = [VObj p; D].
Proof.
  intros Ho Hext Himm Hp Hinst Hv HD Halloc Hne.
  split; [apply fresh_loc_None|].
  assert (Hhost : host ≠ fresh_loc h) by (by apply fresh_loc_ne).
  eexists. split_and!; [|reflexivity| |].
  - by apply (addDelegation_first h host p o D v).
  - simpl. unfold deref. by rewrite lookup_insert_ne, lookup_insert_eq.
  - by rewrite delegates_insert.
Qed.

Lemma attach_first_delegate_witness :
  demo !! fresh_loc demo = None ∧
  ∃ h', addDelegation demo (VObj 10%positive) (OwnArray [VObj 12%positive] false)
          = Ret (h', [VObj 11%positive; VObj 12%positive]) ∧
    h' = <[fresh_loc demo :=
             node_cell (fresh_loc demo) [VObj 11%positive; VObj 12%positive]]>
           (<[10%positive :=
                set_proto (VProxy (fresh_loc demo)) (plain (VObj 11%positive))]> demo) ∧
    getPrototypeOf h' (VObj 10%positive) = Ret (VProxy (fresh_loc demo)) ∧
    delegates h' (fresh_loc demo) = [VObj 11%positive; VObj 12%positive].
Proof.
  apply (attach_first_delegate demo 10%positive 11%positive
           (plain (VObj 11%positive)) (VObj 12%positive) VUndefined);
    try reflexivity.
  - eexists; reflexivity.
  - discriminate.
Defined.

(** C2, as stated, fails: for a host whose original prototype is [null]
    the two calls leave the delegates [[D1; D2]], without an entry for the
    prototype; and a host that is not extensible gets no node at all. *)
Lemma second_attach_without_parent :
  getPrototypeOf demo (VObj 13%positive) = Ret VNull ∧
  (r1 ← addDelegation demo (VObj 13%positive) (OwnArray [VObj 11%positive] false);
   r2 ← addDelegation r1.1 (VObj 13%positive) (OwnArray [VObj 12%positive] false);
   Ret (getPrototypeOf r2.1 (VObj 13%positive), delegates r2.1 14%positive))
    = Ret (Ret (VProxy 14%positive), [VObj 11%positive; VObj 12%positive]) ∧
  addDelegation sealed (VObj 10%positive) (OwnArray [VObj 12%positive] false)
    = Throw TypeError.
Proof. split_and!; vm_compute; reflexivity. Qed.

(** C2, amended: two calls in sequence on a host whose prototype can be
    set and whose prototype [P] is an ordinary object that the instance
    test rejects, with [[D1]] and then [[D2]] ([P], [D1], [D2] distinct,
    [D1] and [D2] truthy and held by the store), allocate one cell: the
    second call allocates nothing, leaves the prototype slot of the host
    as the first call set it, and the delegates of the single node are
    [[P; D1; D2]]. *)
Theorem attach_twice_one_node (h : heap) (host p : loc) (o : object)
    (D1 D2 v : value) :
  h !! host = Some o → obj_extensible o = true →
  obj_immutable_proto o = false → obj_proto o = VObj p →
  hasInstance (VObj MultipleDelegationPrototype) h (VObj p) = Ret v →
  ToBoolean v = false →
  ToBoolean D1 = true → allocated h D1 → D1 ≠ VObj p →
  ToBoolean D2 = true → allocated h D2 → D2 ≠ VObj p → D1 ≠ D2 →
  ∃ h1 h2,
    addDelegation h (VObj host) (OwnArray [D1] false)
      = Ret (h1, [VObj p; D1]) ∧
    addDelegation h1 (VObj host) (OwnArray [D2] false)
      = Ret (h2, [VProxy (fresh_loc h); D2]) ∧
    dom h1 = {[fresh_loc h]} ∪ dom h ∧ (fresh_loc h ∉ dom h) ∧
    dom h2 = dom h1 ∧
    getPrototypeOf h1 (VObj host) = Ret (VProxy (fresh_loc h)) ∧
    h2 !! host = h1 !! host ∧
    delegates h2 (fresh_loc h) = [VObj p; D1; D2].
Proof.
  intros Ho Hext Himm Hp Hinst Hv HD1 Ha1 Hne1 HD2 Ha2 Hne2 Hne12.
  assert (Hhost : host ≠ fresh_loc h) by (by apply fresh_loc_ne).
  destruct (allocated_fresh _ _ Ha2) as [HD2n _].
  set (n := fresh_loc h) in *.
  set (h1 := <[n := node_cell n [VObj p; D1]]>
               (<[host := set_proto (VProxy n) o]> h)).
  assert (Hh1host : h1 !! host = Some (set_proto (VProxy n) o)).
  { unfold h1. by rewrite lookup_insert_ne, lookup_insert_eq. }
  assert (Hh1n : h1 !! n = Some (node_cell n [VObj p; D1])).
  { unfold h1. by rewrite lookup_insert_eq. }
  exists h1, (<[n := node_cell n [VObj p; D1; D2]]> h1).
  split_and!.
  - by apply (addDelegation_first h host p o D1 v).
  - rewrite (addDelegation_merge h1 host n _ _ [VObj p; D1] [D2]
               Hh1host eq_refl Hh1n eq_refl eq_refl eq_refl) by done.
    rewrite filter_cons_False by (by rewrite keep_self).
    rewrite filter_keep_all.
    2:{ by intros x ->%list_elem_of_singleton. }
    rewrite Set_from_NoDup; [done|]. simpl.
    apply NoDup_three; congruence.
  - unfold h1. rewrite dom_insert_L. f_equal. apply dom_insert_present. eauto.
  - apply not_elem_of_dom, fresh_loc_None.
  - apply dom_insert_present. eauto.
  - simpl. unfold deref. by rewrite Hh1host.
  - by rewrite lookup_insert_ne.
  - by rewrite delegates_insert.
Qed.

Lemma attach_twice_one_node_witness :
  ∃ h1 h2,
    addDelegation demo (VObj 10%positive) (OwnArray [VObj 12%positive] false)
      = Ret (h1, [VObj 11%positive; VObj 12%positive]) ∧
    addDelegation h1 (VObj 10%positive) (OwnArray [VObj 13%positive] false)
      = Ret (h2, [VProxy (fresh_loc demo); VObj 13%positive]) ∧
    dom h1 = {[fresh_loc demo]} ∪ dom demo ∧ (fresh_loc demo ∉ dom demo) ∧
    dom h2 = dom h1 ∧
    getPrototypeOf h1 (VObj 10%positive) = Ret (VProxy (fresh_loc demo)) ∧
    h2 !! 10%positive = h1 !! 10%positive ∧
    delegates h2 (fresh_loc demo)
      = [VObj 11%positive; VObj 12%positive; VObj 13%positive].
Proof.
  apply (attach_twice_one_node demo 10%positive 11%positive
           (plain (VObj 11%positive)) (VObj 12%positive) (VObj 13%positive)
           VUndefined);
    try reflexivity; try discriminate; eexists; reflexivity.
Defined.

(** C3, as stated, fails: the filter compares with the prototype of the
    host only, which here is the proxy, so the raw target of the node,
    passed as a delegate, is stored in the node's own delegates. *)
Lemma raw_target_not_excluded :
  addDelegation attached (VObj 10%positive) (OwnArray [VObj 14%positive] false)
    = Ret (<[14%positive :=
               node_cell 14%positive
                 [VObj 11%positive; VObj 12%positive; VObj 14%positive]]> attached,
           [VProxy 14%positive; VObj 14%positive]) ∧
  getPrototypeOf attached (VObj 10%positive) = Ret (VProxy 14%positive) ∧
  get_target attached (VProxy 14%positive) = Ret (VObj 14%positive) ∧
  VObj 14%positive ∈
    delegates (<[14%positive :=
                  node_cell 14%positive
                    [VObj 11%positive; VObj 12%positive; VObj 14%positive]]> attached)
              14%positive.
Proof.
  split_and!; [vm_compute; reflexivity..|].
  rewrite delegates_insert. simpl.
  do 2 apply list_elem_of_further. apply list_elem_of_here.
Qed.

(** C3, amended: a call of [addDelegation] with an array of the caller's
    own (not the live delegate array of a cell) adds to no delegate list
    an entry equal to the prototype that the host has after the call,
    which is the one value the filter compares with, even when such an
    entry was passed.  Another form of the node is not excluded: when the
    raw target that the marker of this prototype names differs from the
    prototype and was passed, it is in the delegates of that target after
    the call. *)
Theorem attach_excludes_wrapped_node (h h' : heap) (host p : value)
    (L arr : list value) (fixed : bool) :
  addDelegation h host (OwnArray L fixed) = Ret (h', arr) →
  getPrototypeOf h' host = Ret p →
  (∀ m, p ∉ delegates h m → p ∉ delegates h' m) ∧
  (∀ n, get_target h' p = Ret (VObj n) → VObj n ≠ p → VObj n ∈ L →
     VObj n ∈ delegates h' n).
Proof.
  intros Hrun Hp.
  apply addDelegation_Ret_inv in Hrun
    as [([= ->] & -> & ->)|(L' & cp & hu & isInstance & hm & p' & n & o & cur
        & [= <-] & HL & Hcp & Hun & -> & Hhm & Hp' & Hm & Ho & Hproto & Hcur & ->)].
  { split; [done|]. by intros n _ _ ?%elem_of_nil. }
  destruct (unshift_shape _ _ _ _ _ Hun)
    as (_ & _ & _ & [[_ ->]|(k & ? & [=] & _)]).
  destruct (install_shape _ _ _ _ Hhm) as (Hdel & _ & _).
  destruct (merged_store_instance hm host p' n o
              (Set_from (cur ++ filter (λ item, keep p' item = true) (cp :: L)))
              Hp' Hm Ho Hproto) as (Hp2 & Hm2 & _).
  rewrite Hp in Hp2. injection Hp2 as <-. split.
  - intros m Hbefore Hafter. destruct (decide (n = m)) as [<-|Hne].
    + rewrite delegates_insert in Hafter. simpl in Hafter.
      apply elem_of_Set_from, elem_of_app in Hafter as [Hin|Hin].
      * apply Hbefore. by rewrite <- Hdel, (delegates_lookup _ _ _ _ Ho Hcur).
      * apply list_elem_of_filter in Hin as [Hk _]. by rewrite keep_self in Hk.
    + rewrite delegates_insert_ne in Hafter by done.
      apply Hbefore. by rewrite <- Hdel.
  - intros n' Ht Hne Hin. apply get_target_marker in Ht.
    rewrite Hm2 in Ht. injection Ht as <-.
    rewrite delegates_insert. simpl.
    apply elem_of_Set_from, elem_of_app. right.
    apply list_elem_of_filter. split; [by apply keep_other|]. by right.
Qed.

Lemma attach_excludes_wrapped_node_witness :
  (∀ m, VProxy 14%positive ∉ delegates attached m →
     VProxy 14%positive ∉
       delegates (<[14%positive :=
                     node_cell 14%positive
                       [VObj 11%positive; VObj 12%positive; VObj 14%positive]]>
                    attached) m) ∧
  (∀ n, get_target (<[14%positive :=
                       node_cell 14%positive
                         [VObj 11%positive; VObj 12%positive; VObj 14%positive]]>
                      attached) (VProxy 14%positive) = Ret (VObj n) →
     VObj n ≠ VProxy 14%positive →
     VObj n ∈ [VProxy 14%positive; VObj 14%positive] →
     VObj n ∈ delegates (<[14%positive :=
                            node_cell 14%positive
                              [VObj 11%positive; VObj 12%positive; VObj 14%positive]]>
                           attached) n).
Proof.
  apply (attach_excludes_wrapped_node attached _ (VObj 10%positive)
           (VProxy 14%positive) [VProxy 14%positive; VObj 14%positive]
           [VProxy 14%positive; VProxy 14%positive; VObj 14%positive] false).
  - vm_compute. reflexivity.
  - vm_compute. reflexivity.
Defined.

(** C4, as stated, fails: the constructor and the setter only remove
    duplicates, so a node created with, or merged with, [null] and
    [undefined] holds them. *)
Lemma create_and_merge_keep_null :
  constructor demo (ArgList [VNull; VUndefined])
    = Ret (<[14%positive := node_cell 14%positive [VNull; VUndefined]]> demo,
           (VProxy 14%positive, VObj 14%positive)) ∧
  constructor demo (ArgOne VNull)
    = Ret (<[14%positive := node_cell 14%positive [VNull]]> demo,
           (VProxy 14%positive, VObj 14%positive)) ∧
  setter attached 14%positive (ArgList [VUndefined; VNull])
    = Ret (<[14%positive :=
               node_cell 14%positive
                 [VObj 11%positive; VObj 12%positive; VUndefined; VNull]]> attached).
Proof. split_and!; vm_compute; reflexivity. Qed.

(** C4, amended: a call of [addDelegation] with an array of the caller's
    own (not the live delegate array of a cell) adds neither [null] nor
    [undefined] to a delegate list: a list free of them stays free of
    them, and the list of a node that the call allocates has none.  Node
    creation and the setter keep every element they are given, [null] and
    [undefined] included. *)
Theorem attach_adds_no_null (h h' : heap) (host : value) (L arr : list value)
    (fixed : bool) :
  addDelegation h host (OwnArray L fixed) = Ret (h', arr) →
  (∀ m x, x = VNull ∨ x = VUndefined →
     x ∈ delegates h' m → x ∈ delegates h m) ∧
  (∀ a x, x ∈ initial_delegates a →
     ∃ r, constructor h a = Ret r ∧ x ∈ delegates r.1 (fresh_loc h)) ∧
  (∀ n o cur a x, h !! n = Some o → obj_list o = Some cur →
     x ∈ cur ++ arg_list a →
     ∃ h2, setter h n a = Ret h2 ∧ x ∈ delegates h2 n).
Proof.
  intros Hrun. split_and!.
  - intros m x Hx Hin. destruct L as [|d L].
    { injection Hrun as <- <-. done. }
    destruct (addDelegation_adds _ _ _ _ _ _ Hrun) as (p & _ & Hadds); [done|].
    destruct (Hadds m x Hin) as [?|[_ Hk%keep_truthy]]; [done|].
    by destruct Hx as [-> | ->].
  - intros a x Hx. rewrite constructor_eq. eexists. split; [done|].
    simpl. rewrite delegates_insert. simpl. by apply elem_of_Set_from.
  - intros n o cur a x Ho Hcur Hx. rewrite (setter_eq _ _ _ _ _ Ho Hcur).
    eexists. split; [done|]. rewrite delegates_insert. simpl.
    by apply elem_of_Set_from.
Qed.

Lemma attach_adds_no_null_witness :
  (∀ m x, x = VNull ∨ x = VUndefined →
     x ∈ delegates attached m → x ∈ delegates demo m) ∧
  (∀ a x, x ∈ initial_delegates a →
     ∃ r, constructor demo a = Ret r ∧ x ∈ delegates r.1 (fresh_loc demo)) ∧
  (∀ n o cur a x, demo !! n = Some o → obj_list o = Some cur →
     x ∈ cur ++ arg_list a →
     ∃ h2, setter demo n a = Ret h2 ∧ x ∈ delegates h2 n).
Proof.
  apply (attach_adds_no_null demo attached (VObj 10%positive)
           [VNull; VObj 12%positive; VUndefined]
           [VObj 11%positive; VNull; VObj 12%positive; VUndefined] false).
  vm_compute. reflexivity.
Defined.

(** C5: on a node, merging a list (or a single value) and merging it again
    gives the same store, hence the same delegate sequence, as merging it
    once. *)
Theorem merge_idempotent (h : heap) (n : loc) (o : object)
    (cur : list value) (a : delegation_arg) :
  h !! n = Some o → obj_list o = Some cur →
  ∃ h1, setter h n a = Ret h1 ∧ setter h1 n a = Ret h1 ∧
    delegates h1 n = Set_from (cur ++ arg_list a).
Proof.
  intros Ho Hcur. eexists. split_and!.
  - by apply setter_eq.
  - erewrite setter_eq; [|apply lookup_insert_eq|reflexivity].
    rewrite insert_insert_eq. unfold set_list. simpl.
    by rewrite Set_from_again.
  - by rewrite delegates_insert.
Qed.

Lemma merge_idempotent_witness :
  ∃ h1, setter attached 14%positive (ArgList [VObj 13%positive; VObj 11%positive])
          = Ret h1 ∧
    setter h1 14%positive (ArgList [VObj 13%positive; VObj 11%positive])
      = Ret h1 ∧
    delegates h1 14%positive
      = Set_from ([VObj 11%positive; VObj 12%positive]
                    ++ arg_list (ArgList [VObj 13%positive; VObj 11%positive])).
Proof.
  apply (merge_idempotent attached 14%positive
           (node_cell 14%positive [VObj 11%positive; VObj 12%positive]));
    reflexivity.
Defined.

(** C6: the delegates after a merge are the concatenation of the old
    delegates and the new ones with every later repeat dropped: each
    reference of the concatenation occurs once, at the position of its
    first occurrence. *)
Theorem merge_keeps_first_occurrence (h : heap) (n : loc) (o : object)
    (cur : list value) (a : delegation_arg) :
  h !! n = Some o → obj_list o = Some cur →
  ∃ h1, setter h n a = Ret h1 ∧
    delegates h1 n = keepFirst (cur ++ arg_list a) ∧
    NoDup (delegates h1 n) ∧
    (∀ x, x ∈ delegates h1 n ↔ x ∈ cur ++ arg_list a).
Proof.
  intros Ho Hcur. eexists. split; [by apply setter_eq|].
  rewrite delegates_insert. simpl. split_and!.
  - apply Set_from_keepFirst.
  - apply NoDup_Set_from.
  - intros x. apply elem_of_Set_from.
Qed.

(** Merging [[A; B; A; C]] into an empty node yields [[A; B; C]]. *)
Lemma merge_keeps_first_occurrence_witness :
  ∃ h1,
    setter (<[14%positive := node_cell 14%positive []]> demo) 14%positive
      (ArgList [VObj 11%positive; VObj 12%positive; VObj 11%positive;
                VObj 13%positive]) = Ret h1 ∧
    delegates h1 14%positive
      = [VObj 11%positive; VObj 12%positive; VObj 13%positive].
Proof.
  destruct (merge_keeps_first_occurrence
              (<[14%positive := node_cell 14%positive []]> demo) 14%positive
              (node_cell 14%positive []) []
              (ArgList [VObj 11%positive; VObj 12%positive; VObj 11%positive;
                        VObj 13%positive]))
    as (h1 & Hrun & Hlist & _); [reflexivity..|].
  exists h1. split; [exact Hrun|].
  rewrite Hlist. vm_compute. reflexivity.
Defined.


(** C7: with an empty list [addDelegation] returns at once, for every
    host (even one that is not an object): the store, and with it every
    prototype slot and every delegate list, is unchanged, and so is the
    caller's array.  This holds for an array of the caller's own, fixed or
    not, and for the live delegate array of a cell when it is empty. *)
Theorem attach_empty_noop (h : heap) (host : value) :
  (∀ fixed, addDelegation h host (OwnArray [] fixed) = Ret (h, [])) ∧
  (∀ n, array_elems h (ListOf n) = Ret [] →
     addDelegation h host (ListOf n) = Ret (h, [])).
Proof.
  split; [reflexivity|].
  intros n Hn. unfold addDelegation. by rewrite Hn.
Qed.

Lemma attach_empty_noop_witness :
  addDelegation demo VNull (OwnArray [] true) = Ret (demo, []) ∧
  addDelegation (<[14%positive := node_cell 14%positive []]> demo)
    (VObj 10%positive) (ListOf 14%positive)
    = Ret (<[14%positive := node_cell 14%positive []]> demo, []).
Proof.
  split.
  - apply (attach_empty_noop demo VNull).
  - apply (attach_empty_noop (<[14%positive := node_cell 14%positive []]> demo)
             (VObj 10%positive)).
    reflexivity.
Defined.

(** C8: the instance test returns [undefined] (falsy, and not the boolean
    [false]) for [null], [undefined], every value that is not an object,
    and every object without the marker key; it returns [true] exactly
    when the value carries the marker and the prototype, one step up, of
    the marker's value is the prototype object of the class. *)
Theorem instanceOf_direct_only (cls : loc) (h : heap) (x : value) :
  hasInstance (VObj cls) h VNull = Ret VUndefined ∧
  hasInstance (VObj cls) h VUndefined = Ret VUndefined ∧
  (typeof_object x = false → hasInstance (VObj cls) h x = Ret VUndefined) ∧
  (allocated h x → marker h x = None →
     hasInstance (VObj cls) h x = Ret VUndefined) ∧
  ToBoolean VUndefined = false ∧
  (hasInstance (VObj cls) h x = Ret (VBool true) ↔
     ∃ t, marker h x = Some t ∧ getPrototypeOf h t = Ret (VObj cls)).
Proof.
  split_and!; try reflexivity.
  - intros Hx. unfold hasInstance. rewrite Hx. by rewrite andb_false_r.
  - apply hasInstance_no_marker.
  - destruct (marker h x) as [t|] eqn:Hm.
    + rewrite (hasInstance_marker _ _ _ _ Hm). split.
      * intros (p & Hp & Hk)%bind_Ret_inv. exists t. split; [done|].
        injection Hk as Hk. apply strictEquals_obj in Hk. by subst.
      * intros (t' & [= <-] & Hp). rewrite Hp. ret.
        by rewrite (proj2 (strictEquals_obj _ _) eq_refl).
    + split; [|by intros (? & ? & _)].
      unfold hasInstance.
      destruct x as [| |b|z| |s|l|l]; try discriminate;
        try (by destruct b); try (by destruct (ToBoolean _));
        simpl in *; unfold proxyHandler.ownKeys, deref;
        destruct (h !! l) as [o|]; try discriminate; simpl in *; ret;
        (rewrite bool_decide_eq_false_2
           by (rewrite KTarget_ownKeys, Hm; by intros [? ?]));
        discriminate.
Qed.

Lemma instanceOf_direct_only_witness :
  hasInstance (VObj MultipleDelegationPrototype) attached (VNum 5)
    = Ret VUndefined ∧
  hasInstance (VObj MultipleDelegationPrototype) attached (VObj 11%positive)
    = Ret VUndefined ∧
  hasInstance (VObj MultipleDelegationPrototype) attached (VProxy 14%positive)
    = Ret (VBool true).
Proof.
  split_and!.
  - destruct (instanceOf_direct_only MultipleDelegationPrototype attached
                (VNum 5)) as (_ & _ & Hprim & _).
    apply Hprim. reflexivity.
  - destruct (instanceOf_direct_only MultipleDelegationPrototype attached
                (VObj 11%positive)) as (_ & _ & _ & Hplain & _).
    apply Hplain; [eexists|]; reflexivity.
  - destruct (instanceOf_direct_only MultipleDelegationPrototype attached
                (VProxy 14%positive)) as (_ & _ & _ & _ & _ & Hnode).
    apply Hnode. exists (VObj 14%positive). split; reflexivity.
Defined.

(** The test looks one step up only: a host whose prototype is a node is
    not itself an instance. *)
Example host_is_not_instance :
  hasInstance (VObj MultipleDelegationPrototype) attached (VObj 10%positive)
    = Ret VUndefined.
Proof. reflexivity. Qed.




(** C10, as stated, fails: a host whose prototype is [null] need not
    accept a node.  A host that is not extensible throws, and so does
    [Object.prototype], whose prototype is [null] and cannot be
    changed. *)
Lemma orphan_host_can_fail :
  getPrototypeOf sealed_orphan (VObj 13%positive) = Ret VNull ∧
  addDelegation sealed_orphan (VObj 13%positive)
    (OwnArray [VObj 12%positive] false) = Throw TypeError ∧
  getPrototypeOf demo (VObj ObjectPrototype) = Ret VNull ∧
  addDelegation demo (VObj ObjectPrototype)
    (OwnArray [VObj 12%positive] false) = Throw TypeError.
Proof. split_and!; vm_compute; reflexivity. Qed.

(** C10, amended: the filter of [addDelegation] rejects every falsy entry
    ([null], [undefined], [0], the empty string, [false], [NaN]), so a
    call with an array of the caller's own (not the live delegate array of
    a cell) adds no falsy value to a delegate list; and for a host whose
    prototype is [null] and can be set (the host is extensible and is not
    an immutable-prototype object), the call with [[D]], [D] truthy and
    held by the store, yields a new node whose delegates are [[D]], with
    no entry for the absent prototype. *)
Theorem attach_filters_falsy (h : heap) (host : loc) (o : object) (D : value) :
  h !! host = Some o → obj_extensible o = true →
  obj_immutable_proto o = false → obj_proto o = VNull →
  ToBoolean D = true → allocated h D →
  (∀ p x, x ∈ [VNull; VUndefined; VNum 0; VStr EmptyString; VBool false; VNaN] →
     keep p x = false) ∧
  (∀ p x, ToBoolean x = false → keep p x = false) ∧
  (∀ y L fixed h' arr m x,
     addDelegation h y (OwnArray L fixed) = Ret (h', arr) →
     ToBoolean x = false → x ∈ delegates h' m → x ∈ delegates h m) ∧
  addDelegation h (VObj host) (OwnArray [D] false) =
    Ret (<[fresh_loc h := node_cell (fresh_loc h) [D]]>
           (<[host := set_proto (VProxy (fresh_loc h)) o]> h),
         [VNull; D]) ∧
  addDelegation h (VObj host)
      (OwnArray [VUndefined; VNum 0; VStr EmptyString; VBool false; VNaN; D]
         false) =
    Ret (<[fresh_loc h := node_cell (fresh_loc h) [D]]>
           (<[host := set_proto (VProxy (fresh_loc h)) o]> h),
         [VNull; VUndefined; VNum 0; VStr EmptyString; VBool false; VNaN; D]).
Proof.
  intros Ho Hext Himm Hp HD Ha.
  destruct (allocated_fresh _ _ Ha) as [HDn _].
  assert (Hkeep : keep (VProxy (fresh_loc h)) D = true) by (by apply keep_other).
  assert (Hinst : hasInstance (VObj MultipleDelegationPrototype) h (obj_proto o)
                  = Ret VUndefined) by (by rewrite Hp).
  split_and!.
  - intros p x Hx. unfold keep.
    repeat (apply elem_of_cons in Hx as [->|Hx]; [reflexivity|]).
    by apply elem_of_nil in Hx.
  - intros p x Hx. unfold keep. by rewrite Hx.
  - intros y L fixed h' arr m x Hrun Hx Hin. destruct L as [|d L].
    { injection Hrun as <- <-. done. }
    destruct (addDelegation_adds _ _ _ _ _ _ Hrun) as (p & _ & Hadds); [done|].
    destruct (Hadds m x Hin) as [?|[_ Hk%keep_truthy]]; [done|congruence].
  - rewrite (addDelegation_install h host o _ [D] Ho Hext Himm Hinst) by done.
    rewrite Hp. rewrite filter_cons_False by done.
    rewrite filter_cons_True by done. by rewrite filter_nil.
  - rewrite (addDelegation_install h host o _ _ Ho Hext Himm Hinst) by done.
    rewrite Hp. rewrite !filter_cons_False by done.
    rewrite filter_cons_True by done. by rewrite filter_nil.
Qed.

Lemma attach_filters_falsy_witness :
  addDelegation demo (VObj 13%positive) (OwnArray [VObj 12%positive] false) =
    Ret (<[fresh_loc demo := node_cell (fresh_loc demo) [VObj 12%positive]]>
           (<[13%positive :=
                set_proto (VProxy (fresh_loc demo)) (plain VNull)]> demo),
         [VNull; VObj 12%positive]).
Proof.
  destruct (attach_filters_falsy demo 13%positive (plain VNull)
              (VObj 12%positive)) as (_ & _ & _ & Hrun & _);
    [reflexivity..|eexists; reflexivity|exact Hrun].
Defined.

(** * Further properties of the class *)

(** ** Helper facts *)

Lemma Set_from_absorb_l (l1 l2 : list value) :
  Set_from (Set_from l1 ++ l2) = Set_from (l1 ++ l2).
Proof.
  rewrite !Set_from_app.
  by rewrite (Set_from_NoDup (Set_from l1)) by apply NoDup_Set_from.
Qed.

(** On a list without repeats, new values are appended behind it. *)
Lemma Set_from_extend (cur l : list value) :
  NoDup cur →
  Set_from (cur ++ l) = cur ++ filter (λ y, y ∉ cur) (keepFirst l).
Proof.
  intros Hcur. rewrite Set_from_app, (Set_from_NoDup cur) by done.
  apply foldl_Set_add_keepFirst.
Qed.

(** The raw target of a node passes the instance test as its proxy
    does. *)
Lemma hasInstance_target (h : heap) (n : loc) (c : object) :
  h !! n = Some c → obj_target c = Some (VObj n) →
  obj_proto c = VObj MultipleDelegationPrototype →
  hasInstance (VObj MultipleDelegationPrototype) h (VObj n) = Ret (VBool true).
Proof.
  intros Hc Ht Hp.
  assert (Hm : marker h (VObj n) = Some (VObj n)).
  { simpl. by rewrite Hc. }
  rewrite (hasInstance_marker _ _ _ _ Hm). simpl.
  rewrite (deref_Some _ _ _ Hc). ret. by rewrite Hp.
Qed.

(** ** Node creation *)

(** X1: the constructor allocates one cell and changes no other; it
    returns the proxy and the raw target of that cell, both of which pass
    the instance test; the delegates of the node are the argument with
    later repeats dropped, where a single value counts as a list of one
    ([null] included) and an omitted argument as the empty list. *)
Theorem constructor_builds_node (h : heap) (a : delegation_arg) :
  ∃ h', constructor h a = Ret (h', (VProxy (fresh_loc h), VObj (fresh_loc h))) ∧
    h !! fresh_loc h = None ∧
    (∀ k, k ≠ fresh_loc h → h' !! k = h !! k) ∧
    dom h' = {[fresh_loc h]} ∪ dom h ∧
    delegates h' (fresh_loc h) =
      match a with
      | ArgList l => keepFirst l
      | ArgOne VUndefined => []
      | ArgOne v => [v]
      end ∧
    hasInstance (VObj MultipleDelegationPrototype) h' (VProxy (fresh_loc h))
      = Ret (VBool true) ∧
    hasInstance (VObj MultipleDelegationPrototype) h' (VObj (fresh_loc h))
      = Ret (VBool true).
Proof.
  eexists. split; [apply constructor_eq|]. split_and!.
  - apply fresh_loc_None.
  - intros k Hk. by rewrite lookup_insert_ne.
  - apply dom_insert_L.
  - rewrite delegates_insert. simpl. rewrite Set_from_keepFirst.
    by destruct a as [l|[]].
  - eapply hasInstance_node; [apply lookup_insert_eq|done..].
  - eapply hasInstance_target; [apply lookup_insert_eq|done..].
Qed.

Lemma constructor_builds_node_witness :
  ∃ h', constructor demo
          (ArgList [VObj 12%positive; VObj 13%positive; VObj 12%positive])
        = Ret (h', (VProxy 14%positive, VObj 14%positive)) ∧
    delegates h' 14%positive = [VObj 12%positive; VObj 13%positive] ∧
    h' !! 10%positive = demo !! 10%positive.
Proof.
  destruct (constructor_builds_node demo
              (ArgList [VObj 12%positive; VObj 13%positive; VObj 12%positive]))
    as (h' & Hrun & _ & Hframe & _ & Hlist & _).
  exists h'. split_and!; [exact Hrun|exact Hlist|].
  apply Hframe. discriminate.
Defined.

(** ** The instance test *)

(** X3: the instance test throws exactly when the marker key of the
    tested value holds [null] or [undefined]; on a value that carries the
    marker it never answers [undefined]: when it returns, it returns a
    boolean. *)
Theorem instanceOf_throws_iff (tp : value) (h : heap) (x : value) :
  (hasInstance tp h x = Throw TypeError ↔
     marker h x = Some VNull ∨ marker h x = Some VUndefined) ∧
  (∀ t v, marker h x = Some t → hasInstance tp h x = Ret v →
     ∃ b, v = VBool b).
Proof.
  destruct (marker h x) as [t|] eqn:Hm.
  - rewrite (hasInstance_marker _ _ _ _ Hm). split.
    + split.
      * destruct t as [| | | | | |l|l]; simpl; auto; try discriminate;
          unfold proxyHandler.getPrototypeOf, deref;
          destruct (h !! l); simpl; discriminate.
      * by intros [[= ->]|[= ->]].
    + intros t' v _ (p & _ & Hv)%bind_Ret_inv. injection Hv as <-. eauto.
  - split; [|discriminate]. split; [|by intros [?|?]].
    unfold hasInstance.
    destruct x as [| |b|z| |s|l|l]; try discriminate;
      try (by destruct b); try (by destruct (ToBoolean _));
      simpl in *; unfold proxyHandler.ownKeys, deref;
      destruct (h !! l) as [o|]; try discriminate; simpl in *; ret;
      (rewrite bool_decide_eq_false_2
         by (rewrite KTarget_ownKeys, Hm; by intros [? ?]));
      discriminate.
Qed.

Lemma instanceOf_throws_iff_witness :
  hasInstance (VObj MultipleDelegationPrototype) marked_null (VObj 10%positive)
    = Throw TypeError ∧
  ∃ b, VBool true = VBool b.
Proof.
  split.
  - destruct (instanceOf_throws_iff (VObj MultipleDelegationPrototype)
                marked_null (VObj 10%positive)) as [Hthrow _].
    apply Hthrow. left. reflexivity.
  - destruct (instanceOf_throws_iff (VObj MultipleDelegationPrototype)
                attached (VProxy 14%positive)) as [_ Hbool].
    apply (Hbool (VObj 14%positive)); reflexivity.
Defined.

(** ** The setter *)

(** X4: on a node whose delegates have no repeats, the setter keeps them
    where they are and appends, in the order of first occurrence, the
    new values that are not among them: adding a delegate again does not
    move it. *)
Theorem setter_appends (h : heap) (n : loc) (o : object)
    (cur : list value) (a : delegation_arg) :
  h !! n = Some o → obj_list o = Some cur → NoDup cur →
  ∃ h', setter h n a = Ret h' ∧
    delegates h' n = cur ++ filter (λ y, y ∉ cur) (keepFirst (arg_list a)) ∧
    (∀ k, k ≠ n → h' !! k = h !! k).
Proof.
  intros Ho Hcur Hnd. eexists. split; [by apply setter_eq|]. split.
  - rewrite delegates_insert. simpl. by apply Set_from_extend.
  - intros k Hk. by rewrite lookup_insert_ne.
Qed.

Lemma setter_appends_witness :
  ∃ h', setter attached 14%positive
          (ArgList [VObj 13%positive; VObj 11%positive; VObj 13%positive])
          = Ret h' ∧
    delegates h' 14%positive
      = [VObj 11%positive; VObj 12%positive; VObj 13%positive].
Proof.
  destruct (setter_appends attached 14%positive
              (node_cell 14%positive [VObj 11%positive; VObj 12%positive])
              [VObj 11%positive; VObj 12%positive]
              (ArgList [VObj 13%positive; VObj 11%positive; VObj 13%positive]))
    as (h' & Hrun & Hlist & _); [reflexivity..| |].
  - apply NoDup_cons_2; [|apply NoDup_singleton].
    intros H%list_elem_of_singleton. discriminate H.
  - exists h'. split; [exact Hrun|]. rewrite Hlist. vm_compute. reflexivity.
Defined.

(** X5: merging a list and then a second list leaves the store that
    merging their concatenation leaves. *)
Theorem setter_twice_is_concat (h : heap) (n : loc) (o : object)
    (cur l1 l2 : list value) :
  h !! n = Some o → obj_list o = Some cur →
  ∃ h1 h2, setter h n (ArgList l1) = Ret h1 ∧
    setter h1 n (ArgList l2) = Ret h2 ∧
    setter h n (ArgList (l1 ++ l2)) = Ret h2.
Proof.
  intros Ho Hcur. eexists _, _. split_and!.
  - by apply setter_eq.
  - erewrite setter_eq; [done|apply lookup_insert_eq|reflexivity].
  - rewrite (setter_eq _ _ _ _ _ Ho Hcur). rewrite insert_insert_eq.
    unfold set_list. simpl. by rewrite Set_from_absorb_l, (assoc_L (++)).
Qed.

Lemma setter_twice_is_concat_witness :
  ∃ h1 h2,
    setter attached 14%positive (ArgList [VObj 13%positive]) = Ret h1 ∧
    setter h1 14%positive (ArgList [VObj 12%positive; VNull]) = Ret h2 ∧
    setter attached 14%positive
      (ArgList ([VObj 13%positive] ++ [VObj 12%positive; VNull])) = Ret h2.
Proof.
  apply (setter_twice_is_concat attached 14%positive
           (node_cell 14%positive [VObj 11%positive; VObj 12%positive])
           [VObj 11%positive; VObj 12%positive]); reflexivity.
Defined.

(** ** addDelegation *)

(** X6: a call that returns on a list that is not empty has changed the
    caller's array in place: the prototype that the host had before the
    call is now its first element, also when that prototype is [null] or
    the node itself, which the filter keeps out of the delegates.  This
    holds for every array, the live delegate array of a cell included. *)
Theorem attach_unshifts_prototype (h h' : heap) (host : value)
    (a : array_ref) (L arr : list value) :
  addDelegation h host a = Ret (h', arr) →
  array_elems h a = Ret L → L ≠ [] →
  ∃ currentPrototype,
    getPrototypeOf h host = Ret currentPrototype ∧
    arr = currentPrototype :: L.
Proof.
  intros Hrun HL Hne.
  apply addDelegation_Ret_inv in Hrun
    as [(HL' & _)|(L' & cp & _ & _ & _ & _ & _ & _ & _
                   & HL' & _ & Hcp & _ & -> & _)];
    rewrite HL in HL'; simplify_eq; eauto.
Qed.

Lemma attach_unshifts_prototype_witness :
  (∃ currentPrototype,
     getPrototypeOf attached (VObj 10%positive) = Ret currentPrototype ∧
     [VProxy 14%positive; VObj 13%positive] = currentPrototype :: [VObj 13%positive]) ∧
  (∃ currentPrototype,
     getPrototypeOf attached (VObj 13%positive) = Ret currentPrototype ∧
     [VNull; VObj 11%positive; VObj 12%positive]
       = currentPrototype :: [VObj 11%positive; VObj 12%positive]).
Proof.
  split.
  - apply (attach_unshifts_prototype attached
             (<[14%positive :=
                  node_cell 14%positive
                    [VObj 11%positive; VObj 12%positive; VObj 13%positive]]> attached)
             (VObj 10%positive) (OwnArray [VObj 13%positive] false)).
    + vm_compute. reflexivity.
    + reflexivity.
    + discriminate.
  - apply (attach_unshifts_prototype attached
             (<[15%positive :=
                  node_cell 15%positive [VObj 11%positive; VObj 12%positive]]>
                (<[13%positive := plain (VProxy 15%positive)]>
                   (<[14%positive :=
                        node_cell 14%positive
                          [VNull; VObj 11%positive; VObj 12%positive]]> attached)))
             (VObj 13%positive) (ListOf 14%positive)).
    + vm_compute. reflexivity.
    + reflexivity.
    + discriminate.
Defined.

(** X7: after a call that returns on an array of the caller's own (not
    the live delegate array of a cell) that is not empty, the prototype of
    the host passes the instance test, and the delegates of its node have
    no repeats and hold exactly what the node held before together with
    the entries of the caller's array that are truthy and are not that
    prototype. *)
Theorem attach_postcondition (h h' : heap) (host : value)
    (L arr : list value) (fixed : bool) :
  addDelegation h host (OwnArray L fixed) = Ret (h', arr) → L ≠ [] →
  ∃ p n,
    getPrototypeOf h' host = Ret p ∧
    hasInstance (VObj MultipleDelegationPrototype) h' p = Ret (VBool true) ∧
    get_target h' p = Ret (VObj n) ∧
    NoDup (delegates h' n) ∧
    (∀ x, x ∈ delegates h' n ↔
       x ∈ delegates h n ∨ (x ∈ arr ∧ ToBoolean x = true ∧ x ≠ p)).
Proof.
  intros Hrun HL.
  apply addDelegation_Ret_inv in Hrun
    as [([= ->] & _)|(L' & cp & hu & isInstance & hm & p & n & o & cur
        & [= <-] & _ & Hcp & Hun & -> & Hhm & Hp & Hm & Ho & Hproto & Hcur & ->)];
    [done|].
  destruct (unshift_shape _ _ _ _ _ Hun)
    as (_ & _ & _ & [[_ ->]|(k & ? & [=] & _)]).
  destruct (merged_store_instance hm host p n o
              (Set_from (cur ++ filter (λ item, keep p item = true) (cp :: L)))
              Hp Hm Ho Hproto) as (Hp' & Hm' & Hinst).
  exists p, n. split_and!; [done|done|by apply marker_get_target| |].
  - rewrite delegates_insert. simpl. apply NoDup_Set_from.
  - intros x. rewrite delegates_insert. simpl.
    rewrite elem_of_Set_from, elem_of_app, list_elem_of_filter.
    destruct (install_shape _ _ _ _ Hhm) as (Hdel & _ & _).
    rewrite <- (Hdel n), (delegates_lookup _ _ _ _ Ho Hcur).
    split; (intros [Hx|[H1 H2]]; [by left|right]).
    + split; [done|]. split; [by apply keep_truthy in H1|].
      intros ->. by rewrite keep_self in H1.
    + destruct H2 as [Ht Hne]. split; [|done]. by apply keep_other.
Qed.

Lemma attach_postcondition_witness :
  ∃ p n,
    getPrototypeOf attached (VObj 10%positive) = Ret p ∧
    hasInstance (VObj MultipleDelegationPrototype) attached p = Ret (VBool true) ∧
    get_target attached p = Ret (VObj n) ∧
    NoDup (delegates attached n) ∧
    (∀ x, x ∈ delegates attached n ↔
       x ∈ delegates demo n ∨
       (x ∈ [VObj 11%positive; VObj 12%positive] ∧ ToBoolean x = true ∧ x ≠ p)).
Proof.
  apply (attach_postcondition demo attached (VObj 10%positive)
           [VObj 12%positive] _ false).
  - vm_compute. reflexivity.
  - discriminate.
Defined.

(** X8: a call that returns removes no cell and allocates at most one;
    it leaves the marker, the extensibility and the debugging record of
    every cell as they were, changes no prototype slot but that of the
    host, and changes the delegates of no cell but the node of the host
    and, when the caller passed its live delegate array, the cell of that
    array. *)
Theorem attach_frame (h h' : heap) (host : value) (a : array_ref)
    (arr : list value) :
  addDelegation h host a = Ret (h', arr) →
  (∀ k o, h !! k = Some o →
     ∃ o', h' !! k = Some o' ∧ obj_target o' = obj_target o ∧
       obj_extensible o' = obj_extensible o ∧
       obj_metadata o' = obj_metadata o ∧
       (host ≠ VObj k → host ≠ VProxy k → obj_proto o' = obj_proto o)) ∧
  (∀ k, is_Some (h' !! k) → is_Some (h !! k) ∨ k = fresh_loc h) ∧
  (∀ p n k, getPrototypeOf h' host = Ret p → get_target h' p = Ret (VObj n) →
     k ≠ n → a ≠ ListOf k → delegates h' k = delegates h k).
Proof.
  intros Hrun.
  apply addDelegation_Ret_inv in Hrun
    as [(_ & -> & ->)|(L & cp & hu & isInstance & hm & p & n & o & cur
        & HL & _ & Hcp & Hun & -> & Hhm & Hp & Hm & Ho & Hproto & Hcur & ->)].
  { split_and!; eauto 10. }
  destruct (install_shape _ _ _ _ Hhm) as (Hdel & Hcells & Hdom).
  destruct (merged_store_instance hm host p n o
              (Set_from (cur ++ filter (λ item, keep p item = true) (cp :: L)))
              Hp Hm Ho Hproto) as (Hp' & Hm' & _).
  assert (Hu : (∀ k ok, h !! k = Some ok →
                 ∃ ou, hu !! k = Some ou ∧ obj_target ou = obj_target ok ∧
                   obj_extensible ou = obj_extensible ok ∧
                   obj_metadata ou = obj_metadata ok ∧
                   obj_proto ou = obj_proto ok) ∧
               dom hu = dom h ∧
               (∀ k, a ≠ ListOf k → delegates hu k = delegates h k)).
  { destruct (unshift_shape _ _ _ _ _ Hun)
      as (L1 & HL1 & Harr & [[_ Heq]|(ka & oa & Ha & Hka & Hla & Heq)]);
      rewrite Heq; clear Heq.
    - split_and!; eauto 10.
    - rewrite Ha. split_and!.
      + intros k ok Hk. destruct (decide (ka = k)) as [->|Hne].
        * rewrite lookup_insert_eq. eexists. split; [done|].
          rewrite Hka in Hk. by injection Hk as <-.
        * rewrite lookup_insert_ne by done. eauto 10.
      + apply dom_insert_present. eauto.
      + intros k Hk. apply delegates_insert_ne. congruence. }
  destruct Hu as (Hucells & Hudom & Hudel).
  split_and!.
  - intros k ok Hk.
    destruct (Hucells k ok Hk) as (ou & Hku & Htu & Heu & Hmu & Hpu).
    destruct (Hcells k ou Hku) as (o' & Hk' & Ht & Hl & He & Hmd & Hpr).
    destruct (decide (n = k)) as [->|Hne].
    + rewrite lookup_insert_eq. eexists. split; [done|].
      rewrite Hk' in Ho. injection Ho as <-. simpl.
      split_and!; try congruence. intros H1 H2. rewrite <- Hpu. by apply Hpr.
    + rewrite lookup_insert_ne by done. exists o'.
      split_and!; try congruence. intros H1 H2. rewrite <- Hpu. by apply Hpr.
  - intros k [ok Hk].
    assert (Hm1 : is_Some (hm !! k)).
    { destruct (decide (n = k)) as [->|Hne]; [eauto|].
      rewrite lookup_insert_ne in Hk by done. eauto. }
    destruct (Hdom k Hm1) as [Hin| ->].
    + left. by rewrite <- !elem_of_dom, <- Hudom, elem_of_dom in *.
    + right. by apply fresh_loc_dom.
  - intros p' n' k Hp2 Ht2 Hk Ha.
    rewrite Hp' in Hp2. injection Hp2 as <-.
    apply get_target_marker in Ht2. rewrite Hm' in Ht2. injection Ht2 as <-.
    rewrite delegates_insert_ne by done. rewrite Hdel. by apply Hudel.
Qed.

Lemma attach_frame_witness :
  (∀ k o, demo !! k = Some o →
     ∃ o', attached !! k = Some o' ∧ obj_target o' = obj_target o ∧
       obj_extensible o' = obj_extensible o ∧
       obj_metadata o' = obj_metadata o ∧
       (VObj 10%positive ≠ VObj k → VObj 10%positive ≠ VProxy k →
        obj_proto o' = obj_proto o)) ∧
  (∀ k, is_Some (attached !! k) → is_Some (demo !! k) ∨ k = fresh_loc demo) ∧
  (∀ p n k, getPrototypeOf attached (VObj 10%positive) = Ret p →
     get_target attached p = Ret (VObj n) →
     k ≠ n → OwnArray [VObj 12%positive] false ≠ ListOf k →
     delegates attached k = delegates demo k).
Proof.
  apply (attach_frame demo attached (VObj 10%positive)
           (OwnArray [VObj 12%positive] false)
           [VObj 11%positive; VObj 12%positive]).
  vm_compute. reflexivity.
Defined.

(** X9: for a host whose prototype is the proxy of a node whose delegates
    have no repeats, a call with an array of the caller's own that is not
    fixed and not empty allocates nothing and leaves the host as it is,
    also when the host is not extensible; the delegates keep their places,
    and the truthy entries of the array that are neither the proxy nor
    among the delegates are appended in the order of first occurrence. *)
Theorem attach_merges_into_node (h : heap) (host n : loc) (o c : object)
    (cur L : list value) :
  h !! host = Some o → obj_proto o = VProxy n →
  h !! n = Some c → obj_target c = Some (VObj n) →
  obj_proto c = VObj MultipleDelegationPrototype → obj_list c = Some cur →
  NoDup cur → L ≠ [] →
  ∃ h', addDelegation h (VObj host) (OwnArray L false)
          = Ret (h', VProxy n :: L) ∧
    dom h' = dom h ∧ h' !! host = Some o ∧
    delegates h' n =
      cur ++ filter (λ y, y ∉ cur)
               (keepFirst (filter (λ item, keep (VProxy n) item = true) L)).
Proof.
  intros Ho Hp Hc Ht Hcp Hl Hnd HL.
  assert (Hne : n ≠ host).
  { intros ->. rewrite Ho in Hc. injection Hc as ->. congruence. }
  eexists. split_and!.
  - by apply (addDelegation_merge h host n o c cur L).
  - apply dom_insert_present. eauto.
  - by rewrite lookup_insert_ne.
  - rewrite delegates_insert. simpl.
    by rewrite filter_keep_self_cons, Set_from_extend.
Qed.

Lemma attach_merges_into_node_witness :
  ∃ h', addDelegation attached_sealed (VObj 10%positive)
          (OwnArray [VObj 13%positive; VNull; VObj 11%positive;
                     VProxy 14%positive] false)
        = Ret (h', [VProxy 14%positive; VObj 13%positive; VNull;
                    VObj 11%positive; VProxy 14%positive]) ∧
    delegates h' 14%positive
      = [VObj 11%positive; VObj 12%positive; VObj 13%positive].
Proof.
  destruct (attach_merges_into_node attached_sealed
              10%positive 14%positive
              (Object (VProxy 14%positive) false None None false false false)
              (node_cell 14%positive [VObj 11%positive; VObj 12%positive])
              [VObj 11%positive; VObj 12%positive]
              [VObj 13%positive; VNull; VObj 11%positive; VProxy 14%positive])
    as (h' & Hrun & _ & _ & Hlist); [reflexivity..| | |].
  - apply NoDup_cons_2; [|apply NoDup_singleton].
    intros H%list_elem_of_singleton. discriminate H.
  - discriminate.
  - exists h'. split; [exact Hrun|]. rewrite Hlist. vm_compute. reflexivity.
Defined.

(** X10: with a list that is not empty, a host that is [null] or
    [undefined] makes the call throw a [TypeError], whatever the store
    and whatever array is passed. *)
Theorem attach_nullish_host_throws (h : heap) (a : array_ref)
    (L : list value) :
  array_elems h a = Ret L → L ≠ [] →
  addDelegation h VNull a = Throw TypeError ∧
  addDelegation h VUndefined a = Throw TypeError.
Proof.
  intros Ha HL. unfold addDelegation. rewrite Ha. ret.
  destruct L as [|d L]; [done|]. by split.
Qed.

Lemma attach_nullish_host_throws_witness :
  addDelegation demo VNull (OwnArray [VObj 12%positive] false) = Throw TypeError ∧
  addDelegation demo VUndefined (OwnArray [VObj 12%positive] false)
    = Throw TypeError.
Proof.
  apply (attach_nullish_host_throws demo (OwnArray [VObj 12%positive] false)
           [VObj 12%positive]).
  - reflexivity.
  - discriminate.
Defined.

(** X11: a host whose prototype cannot be set (it is not extensible, or it
    is an immutable-prototype object) and whose prototype is not an
    instance cannot be given a node: with an array of the caller's own
    that is not empty the call throws a [TypeError]. *)
Theorem attach_sealed_host_throws (h : heap) (host : loc) (o : object)
    (v : value) (L : list value) (fixed : bool) :
  h !! host = Some o →
  obj_extensible o = false ∨ obj_immutable_proto o = true →
  hasInstance (VObj MultipleDelegationPrototype) h (obj_proto o) = Ret v →
  ToBoolean v = false → L ≠ [] →
  addDelegation h (VObj host) (OwnArray L fixed) = Throw TypeError.
Proof.
  intros Ho Hfix Hinst Hv HL.
  assert (Hne : host ≠ fresh_loc h) by (by apply fresh_loc_ne).
  assert (Hproto : obj_proto o ≠ VProxy (fresh_loc h)).
  { intros Heq. rewrite Heq in Hinst. unfold hasInstance in Hinst.
    simpl in Hinst. unfold proxyHandler.ownKeys, deref in Hinst.
    by rewrite fresh_loc_None in Hinst. }
  unfold addDelegation. destruct L as [|d L]; [done|]. simpl.
  rewrite (deref_Some _ _ _ Ho). ret. destruct fixed; [done|]. ret.
  cbn [fst snd]. rewrite Hinst. ret. rewrite Hv. simpl.
  rewrite constructor_eq. run. rewrite Ho. run.
  rewrite bool_decide_eq_false_2 by done.
  destruct Hfix as [Hext|Himm].
  - rewrite Hext. by destruct (obj_immutable_proto o).
  - by rewrite Himm.
Qed.

Lemma attach_sealed_host_throws_witness :
  addDelegation sealed (VObj 10%positive)
    (OwnArray [VObj 12%positive; VObj 13%positive] false) = Throw TypeError ∧
  addDelegation demo (VObj ObjectPrototype)
    (OwnArray [VObj 12%positive] false) = Throw TypeError.
Proof.
  split.
  - apply (attach_sealed_host_throws sealed 10%positive
             (Object (VObj 11%positive) false None None false false false)
             VUndefined); try reflexivity; [by left|discriminate].
  - apply (attach_sealed_host_throws demo ObjectPrototype
             (Object VNull true None None false true false)
             VUndefined); try reflexivity; [by right|discriminate].
Defined.

(** X12: a call that returns can be repeated with the same list and then
    returns the store it left the first time: nothing is allocated and no
    delegate is added or moved. *)
Theorem attach_again_same_store (h h1 : heap) (host : value)
    (L arr : list value) (fixed : bool) :
  addDelegation h host (OwnArray L fixed) = Ret (h1, arr) →
  ∃ arr', addDelegation h1 host (OwnArray L fixed) = Ret (h1, arr').
Proof.
  intros Hrun.
  apply addDelegation_Ret_inv in Hrun
    as [([= ->] & -> & ->)|(L' & cp & hu & isInstance & hm & p & n & o & cur
        & [= <-] & HL & Hcp & Hun & -> & Hhm & Hp & Hm & Ho & Hproto & Hcur & ->)].
  { by eexists. }
  destruct (unshift_shape _ _ _ _ _ Hun)
    as (L1 & HL1 & Harr & [[Heqa Heq]|(k & ? & [=] & _)]).
  simplify_eq. destruct L1 as [|d L]; [done|].
  set (F1 := filter (λ item, keep p item = true) (cp :: d :: L)).
  destruct (merged_store_instance hm host p n o (Set_from (cur ++ F1))
              Hp Hm Ho Hproto) as (Hp' & Hm' & Hinst).
  exists (p :: d :: L). unfold addDelegation. simpl array_elems. ret.
  cbn [length Nat.eqb].
  rewrite Hp'. ret. simpl unshift. ret. cbn [fst snd].
  rewrite Hinst. ret. cbn [ToBoolean negb]. ret.
  rewrite Hp'. ret. rewrite (marker_get_target _ _ _ Hm'). ret.
  unfold call_setter, deref. rewrite lookup_insert_eq. ret.
  cbn [set_list obj_proto]. rewrite Hproto, bool_decide_eq_true_2 by done.
  erewrite setter_eq; [|apply lookup_insert_eq|reflexivity]. ret.
  rewrite insert_insert_eq. do 2 f_equal. unfold set_list. simpl. f_equal.
  f_equal. rewrite filter_keep_self_cons, Set_from_app.
  rewrite (Set_from_NoDup (Set_from _)) by apply NoDup_Set_from.
  f_equal. apply foldl_Set_add_absorb. intros x [Hk Hx]%list_elem_of_filter.
  apply elem_of_Set_from, elem_of_app. right.
  apply list_elem_of_filter. split; [done|]. by right.
Qed.

Lemma attach_again_same_store_witness :
  ∃ arr', addDelegation attached (VObj 10%positive)
            (OwnArray [VObj 12%positive] false) = Ret (attached, arr').
Proof.
  apply (attach_again_same_store demo attached (VObj 10%positive)
           [VObj 12%positive] [VObj 11%positive; VObj 12%positive] false).
  vm_compute. reflexivity.
Defined.

(** X13: on a host whose prototype can be set (the host is extensible and
    is not an immutable-prototype object) and is not an instance,
    attaching a list and then a second list leaves the store that
    attaching their concatenation in one call leaves; each list is an
    array of the caller's own that is not fixed and not empty. *)
Theorem attach_in_two_steps (h : heap) (host : loc) (o : object) (v : value)
    (L1 L2 : list value) :
  h !! host = Some o → obj_extensible o = true →
  obj_immutable_proto o = false →
  hasInstance (VObj MultipleDelegationPrototype) h (obj_proto o) = Ret v →
  ToBoolean v = false → L1 ≠ [] → L2 ≠ [] →
  ∃ h1 h2,
    addDelegation h (VObj host) (OwnArray L1 false)
      = Ret (h1, obj_proto o :: L1) ∧
    addDelegation h1 (VObj host) (OwnArray L2 false)
      = Ret (h2, VProxy (fresh_loc h) :: L2) ∧
    addDelegation h (VObj host) (OwnArray (L1 ++ L2) false)
      = Ret (h2, obj_proto o :: L1 ++ L2).
Proof.
  intros Ho Hext Himm Hinst Hv HL1 HL2.
  assert (Hne : host ≠ fresh_loc h) by (by apply fresh_loc_ne).
  pose (F1 := filter (λ item, keep (VProxy (fresh_loc h)) item = true)
                (obj_proto o :: L1)).
  pose (h1 := <[fresh_loc h := node_cell (fresh_loc h) (Set_from F1)]>
                (<[host := set_proto (VProxy (fresh_loc h)) o]> h)).
  assert (Hrun2 := addDelegation_merge h1 host (fresh_loc h)
            (set_proto (VProxy (fresh_loc h)) o)
            (node_cell (fresh_loc h) (Set_from F1)) (Set_from F1) L2).
  exists h1. eexists. split_and!.
  - by apply (addDelegation_install h host o v L1).
  - apply Hrun2; try done; unfold h1.
    + by rewrite lookup_insert_ne, lookup_insert_eq.
    + by rewrite lookup_insert_eq.
  - rewrite (addDelegation_install h host o v (L1 ++ L2) Ho Hext Himm Hinst Hv)
      by (by destruct L1).
    unfold h1. rewrite insert_insert_eq. do 3 f_equal.
    unfold set_list, node_cell. simpl.
    do 2 f_equal. rewrite filter_keep_self_cons. unfold F1.
    rewrite Set_from_absorb_l. by rewrite <- filter_app.
Qed.

Lemma attach_in_two_steps_witness :
  ∃ h1 h2,
    addDelegation demo (VObj 10%positive) (OwnArray [VObj 12%positive] false)
      = Ret (h1, [VObj 11%positive; VObj 12%positive]) ∧
    addDelegation h1 (VObj 10%positive)
      (OwnArray [VObj 13%positive; VObj 12%positive] false)
      = Ret (h2, [VProxy (fresh_loc demo); VObj 13%positive; VObj 12%positive]) ∧
    addDelegation demo (VObj 10%positive)
      (OwnArray ([VObj 12%positive] ++ [VObj 13%positive; VObj 12%positive]) false)
      = Ret (h2, [VObj 11%positive; VObj 12%positive; VObj 13%positive;
                  VObj 12%positive]).
Proof.
  apply (attach_in_two_steps demo 10%positive (plain (VObj 11%positive))
           VUndefined [VObj 12%positive] [VObj 13%positive; VObj 12%positive]);
    try reflexivity; discriminate.
Defined.
